(** * Sign-out coordination of the session manager settings tab

    A shallow embedding of [useSignOut] from
    [src/components/views/settings/tabs/user/SessionManagerTab.tsx]
    (lines 41-147) and the properties of its [onSignOutOtherDevices]
    operation.

    The hook's asynchronous code is written in a small task monad whose
    nodes are the synchronous effects of the source (logger calls, dialog
    creation, React state updates), its one mutable local ([success]) and
    its suspension points ([await]).  A task is run either against a fixed
    behaviour of the collaborators ([exec]) or as one of several requests
    interleaved at their suspension points over the shared React state
    ([sys_step]). *)

From Stdlib Require Import String List Bool Arith Lia.
From stdpp Require Import base list strings.
Import ListNotations.

(** ** JavaScript data *)

(** The values carried by the promises the hook awaits: the first element
    of a dialog's [finished] tuple ([confirmed], possibly [undefined]),
    the boolean handed to the deletion callback, or [undefined] for
    [Promise<void>]. *)
Inductive Value : Type :=
| VUndefined
| VBool (b : bool).

(** [!!v] and [if (v)]. *)
Definition truthy (v : Value) : bool :=
  match v with
  | VUndefined => false
  | VBool b => b
  end.

Definition Error := string.

(** How a promise settles. *)
Inductive Settle : Type :=
| Fulfilled (v : Value)
| Rejected (e : Error).

Definition DeviceId := string.

(** [delegatedAuthAccountUrl?: string] used as a condition: [undefined]
    and the empty string are falsy. *)
Definition truthy_str (s : option string) : option string :=
  match s with
  | Some u => if String.eqb u "" then None else Some u
  | None => None
  end.

Definition delegated (delegatedAuthAccountUrl : option string) : bool :=
  match truthy_str delegatedAuthAccountUrl with
  | Some _ => true
  | None => false
  end.

(** [deviceIds.includes(deviceId)] *)
Definition includes (deviceIds : list DeviceId) (deviceId : DeviceId) : bool :=
  existsb (String.eqb deviceId) deviceIds.

(** ** Collaborators *)

Inductive Dialog : Type :=
| QuestionDialog (count : nat)
| OidcLogoutDialog (deviceId : option DeviceId) (delegatedAuthAccountUrl : string)
| LogoutDialog.

(** The promises [onSignOutOtherDevices] suspends on. *)
Inductive Call : Type :=
| finished (d : Dialog)
| deleteDevicesWithInteractiveAuth (deviceIds : list DeviceId)
| deferredSuccess_promise
| onSignoutResolvedCallback.

(** The two functional updaters passed to [setSigningOutDeviceIds]
    (lines 114 and 136-138). *)
Inductive Updater : Type :=
| Append (deviceIds : list DeviceId)
| FilterOut (deviceIds : list DeviceId).

Definition apply_updater (u : Updater) (signingOutDeviceIds : list DeviceId)
  : list DeviceId :=
  match u with
  | Append deviceIds => signingOutDeviceIds ++ deviceIds
  | FilterOut deviceIds =>
      List.filter (fun deviceId => negb (includes deviceIds deviceId))
                  signingOutDeviceIds
  end.

(** Synchronous, observable effects. *)
Inductive Effect : Type :=
| logger_warn (msg : string)
| logger_error (msg : string) (error : Error)
| Modal_createDialog (d : Dialog)
| setSigningOutDeviceIds (u : Updater).

(** ** Tasks: the body of an async function *)

Inductive Task (A : Type) : Type :=
| Ret (a : A)
| Throw (e : Error)
| Do (e : Effect) (k : Task A)
| Assign (success : bool) (k : Task A)
| Read (k : bool -> Task A)
| Await (c : Call) (k : Settle -> Task A).

Arguments Ret {A} a.
Arguments Throw {A} e.
Arguments Do {A} e k.
Arguments Assign {A} success k.
Arguments Read {A} k.
Arguments Await {A} c k.

Fixpoint bind {A B : Type} (t : Task A) (f : A -> Task B) : Task B :=
  match t with
  | Ret a => f a
  | Throw e => Throw e
  | Do e k => Do e (bind k f)
  | Assign b k => Assign b (bind k f)
  | Read k => Read (fun b => bind (k b) f)
  | Await c k => Await c (fun s => bind (k s) f)
  end.

Declare Scope task_scope.
Delimit Scope task_scope with task.
Notation "x <- t ;; k" := (bind t (fun x => k))
  (at level 100, t at next level, right associativity) : task_scope.
Notation "t ;; k" := (bind t (fun _ => k))
  (at level 100, right associativity) : task_scope.

(** [try { t } catch (error) { h error }] *)
Fixpoint try_catch {A : Type} (t : Task A) (h : Error -> Task A) : Task A :=
  match t with
  | Ret a => Ret a
  | Throw e => h e
  | Do e k => Do e (try_catch k h)
  | Assign b k => Assign b (try_catch k h)
  | Read k => Read (fun b => try_catch (k b) h)
  | Await c k => Await c (fun s => try_catch (k s) h)
  end.

(** [try { t } finally { fin }]: [fin] runs on both exits; an exception
    raised by [fin] itself replaces the completion of [t]. *)
Fixpoint try_finally {A : Type} (t : Task A) (fin : Task unit) : Task A :=
  match t with
  | Ret a => bind fin (fun _ => Ret a)
  | Throw e => bind fin (fun _ => Throw e)
  | Do e k => Do e (try_finally k fin)
  | Assign b k => Assign b (try_finally k fin)
  | Read k => Read (fun b => try_finally (k b) fin)
  | Await c k => Await c (fun s => try_finally (k s) fin)
  end.

Definition try_catch_finally {A : Type}
  (t : Task A) (h : Error -> Task A) (fin : Task unit) : Task A :=
  try_finally (try_catch t h) fin.

Definition perform (e : Effect) : Task unit := Do e (Ret tt).
Definition assign (success : bool) : Task unit := Assign success (Ret tt).
Definition read_success : Task bool := Read (fun b => Ret b).

(** [await p]: the value of a fulfilled promise, the exception of a
    rejected one. *)
Definition await (c : Call) : Task Value :=
  Await c (fun s => match s with
                    | Fulfilled v => Ret v
                    | Rejected e => Throw e
                    end).

(** ** The source functions *)

Local Open Scope task_scope.

(** Lines 41-59. *)
Definition confirmSignOut (sessionsToSignOutCount : nat) : Task bool :=
  perform (Modal_createDialog (QuestionDialog sessionsToSignOutCount)) ;;
  confirmed <- await (finished (QuestionDialog sessionsToSignOutCount)) ;;
  Ret (truthy confirmed).

(** Lines 61-69. *)
Definition confirmDelegatedAuthSignOut
  (delegatedAuthAccountUrl : string) (deviceId : option DeviceId) : Task bool :=
  perform (Modal_createDialog (OidcLogoutDialog deviceId delegatedAuthAccountUrl)) ;;
  confirmed <- await (finished (OidcLogoutDialog deviceId delegatedAuthAccountUrl)) ;;
  Ret (truthy confirmed).

(** Lines 82-90. *)
Definition onSignOutCurrentDevice : Task unit :=
  perform (Modal_createDialog LogoutDialog).

Definition warn_multiple : string :=
  "Unexpectedly tried to sign out multiple OIDC-aware devices."%string.
Definition error_oidc : string := "Error deleting OIDC-aware sessions"%string.
Definition error_sessions : string := "Error deleting sessions"%string.

(** Lines 112-139: what runs once the guards have been passed.
    [const [deviceId] = deviceIds] is [head deviceIds]; the completion
    callback handed to [deleteDevicesWithInteractiveAuth] resolves
    [deferredSuccess], which is what the second [await] suspends on. *)
Definition signOutDevices
  (delegatedAuthAccountUrl : option string) (deviceIds : list DeviceId)
  : Task unit :=
  assign false ;;
  try_catch_finally
    (perform (setSigningOutDeviceIds (Append deviceIds)) ;;
     match truthy_str delegatedAuthAccountUrl with
     | Some url =>
         try_catch
           (s <- confirmDelegatedAuthSignOut url (head deviceIds) ;;
            assign s)
           (fun error => perform (logger_error error_oidc error))
     | None =>
         _ <- await (deleteDevicesWithInteractiveAuth deviceIds) ;;
         s <- await deferredSuccess_promise ;;
         assign (truthy s)
     end)
    (fun error => perform (logger_error error_sessions error))
    (success <- read_success ;;
     (if success : bool
      then _ <- await onSignoutResolvedCallback ;; Ret tt
      else Ret tt) ;;
     perform (setSigningOutDeviceIds (FilterOut deviceIds))).

(** Lines 92-140. *)
Definition onSignOutOtherDevices
  (delegatedAuthAccountUrl : option string) (deviceIds : list DeviceId)
  : Task unit :=
  if Nat.eqb (length deviceIds) 0 then Ret tt
  else if delegated delegatedAuthAccountUrl && negb (Nat.eqb (length deviceIds) 1)
  then perform (logger_warn warn_multiple) ;; Ret tt
  else if negb (delegated delegatedAuthAccountUrl)
  then userConfirmedSignout <- confirmSignOut (length deviceIds) ;;
       if negb userConfirmedSignout then Ret tt
       else signOutDevices delegatedAuthAccountUrl deviceIds
  else signOutDevices delegatedAuthAccountUrl deviceIds.

Local Close Scope task_scope.

(** ** Running a task *)

Inductive Event : Type :=
| EvDo (e : Effect)
| EvAwait (c : Call)
| EvSettled (c : Call) (s : Settle).

(** What a task can touch: the shared React state and its own local. *)
Record State : Type := mkState {
  signingOutDeviceIds : list DeviceId;
  success : bool
}.

Definition do_effect (e : Effect) (st : State) : State :=
  match e with
  | setSigningOutDeviceIds u =>
      mkState (apply_updater u (signingOutDeviceIds st)) (success st)
  | _ => st
  end.

Inductive Completion : Type :=
| Resolved
| RejectedWith (e : Error).

Inductive Outcome : Type :=
| Completed (r : Completion)
| PendingOn (c : Call).

(** A behaviour of the collaborators: how each awaited promise settles,
    [None] when it never does. *)
Definition Behaviour := Call -> option Settle.

(** One whole invocation against a fixed behaviour; the events are
    listed in the order they happen. *)
Fixpoint exec (env : Behaviour) (t : Task unit) (st : State)
  : Outcome * State * list Event :=
  match t with
  | Ret _ => (Completed Resolved, st, [])
  | Throw e => (Completed (RejectedWith e), st, [])
  | Do e k =>
      let '(o, st', evs) := exec env k (do_effect e st) in
      (o, st', EvDo e :: evs)
  | Assign b k => exec env k (mkState (signingOutDeviceIds st) b)
  | Read k => exec env (k (success st)) st
  | Await c k =>
      match env c with
      | None => (PendingOn c, st, [EvAwait c])
      | Some s =>
          let '(o, st', evs) := exec env (k s) st in
          (o, st', EvAwait c :: EvSettled c s :: evs)
      end
  end.

(** ** Interleaved requests *)

Inductive Status : Type :=
| Suspended (c : Call) (k : Settle -> Task unit)
| Done (r : Completion).

(** Run-to-completion: the synchronous stretch up to the next [await]. *)
Fixpoint advance (t : Task unit) (st : State) : Status * State * list Event :=
  match t with
  | Ret _ => (Done Resolved, st, [])
  | Throw e => (Done (RejectedWith e), st, [])
  | Do e k =>
      let '(s, st', evs) := advance k (do_effect e st) in
      (s, st', EvDo e :: evs)
  | Assign b k => advance k (mkState (signingOutDeviceIds st) b)
  | Read k => advance (k (success st)) st
  | Await c k => (Suspended c k, st, [EvAwait c])
  end.

Record Request : Type := mkRequest {
  req_deviceIds : list DeviceId;
  req_success : bool;
  req_trace : list Event;
  req_status : Status
}.

Record System : Type := mkSystem {
  sys_signingOutDeviceIds : list DeviceId;
  sys_requests : list Request
}.

(** [useState([])] and no call made yet. *)
Definition sys_init : System := mkSystem [] [].

Inductive Stimulus : Type :=
| Invoke (delegatedAuthAccountUrl : option string) (deviceIds : list DeviceId)
| Settles (i : nat) (s : Settle).

Definition sys_step (ev : Stimulus) (sys : System) : System :=
  match ev with
  | Invoke url deviceIds =>
      let '(status, st, evs) :=
        advance (onSignOutOtherDevices url deviceIds)
                (mkState (sys_signingOutDeviceIds sys) false) in
      mkSystem (signingOutDeviceIds st)
               (sys_requests sys ++ [mkRequest deviceIds (success st) evs status])
  | Settles i s =>
      match sys_requests sys !! i with
      | Some r =>
          match req_status r with
          | Suspended c k =>
              let '(status, st, evs) :=
                advance (k s) (mkState (sys_signingOutDeviceIds sys) (req_success r)) in
              mkSystem (signingOutDeviceIds st)
                       (<[i := mkRequest (req_deviceIds r) (success st)
                                         (req_trace r ++ EvSettled c s :: evs)
                                         status]> (sys_requests sys))
          | Done _ => sys
          end
      | None => sys
      end
  end.

Definition sys_run (schedule : list Stimulus) : System :=
  fold_left (fun sys ev => sys_step ev sys) schedule sys_init.

(** ** Observations on traces and behaviours *)

Definition is_append (ev : Event) : bool :=
  match ev with
  | EvDo (setSigningOutDeviceIds (Append _)) => true
  | _ => false
  end.

Definition is_removal (ev : Event) : bool :=
  match ev with
  | EvDo (setSigningOutDeviceIds (FilterOut _)) => true
  | _ => false
  end.

Definition is_callback (ev : Event) : bool :=
  match ev with
  | EvAwait onSignoutResolvedCallback => true
  | _ => false
  end.

(** The two deletion flows: the delegated-auth logout dialog and the
    interactive-auth deletion API. *)
Definition is_deletion_flow (ev : Event) : bool :=
  match ev with
  | EvDo (Modal_createDialog (OidcLogoutDialog _ _)) => true
  | EvAwait (finished (OidcLogoutDialog _ _)) => true
  | EvAwait (deleteDevicesWithInteractiveAuth _) => true
  | _ => false
  end.

(** Everything that talks to the outside after the guards: the deletion
    flows, the deferred result and the resolution callback. *)
Definition is_network (ev : Event) : bool :=
  match ev with
  | EvDo (Modal_createDialog (OidcLogoutDialog _ _)) => true
  | EvAwait (finished (OidcLogoutDialog _ _)) => true
  | EvSettled (finished (OidcLogoutDialog _ _)) _ => true
  | EvAwait (deleteDevicesWithInteractiveAuth _) => true
  | EvSettled (deleteDevicesWithInteractiveAuth _) _ => true
  | EvAwait deferredSuccess_promise => true
  | EvSettled deferredSuccess_promise _ => true
  | EvAwait onSignoutResolvedCallback => true
  | EvSettled onSignoutResolvedCallback _ => true
  | _ => false
  end.

Definition count (p : Event -> bool) (evs : list Event) : nat :=
  length (List.filter p evs).

(** The React state after the updates of a trace have been applied. *)
Definition replay (evs : list Event) (store : list DeviceId) : list DeviceId :=
  fold_left (fun s ev => match ev with
                         | EvDo (setSigningOutDeviceIds u) => apply_updater u s
                         | _ => s
                         end) evs store.

Definition fulfils (o : option Settle) : bool :=
  match o with Some (Fulfilled _) => true | _ => false end.
Definition fulfils_truthy (o : option Settle) : bool :=
  match o with Some (Fulfilled v) => truthy v | _ => false end.
Definition fulfils_falsy (o : option Settle) : bool :=
  match o with Some (Fulfilled v) => negb (truthy v) | _ => false end.
Definition rejects (o : option Settle) : bool :=
  match o with Some (Rejected _) => true | _ => false end.

(** The user answers the yes/no dialog of [confirmSignOut]. *)
Definition user_confirms (env : Behaviour) (deviceIds : list DeviceId) : bool :=
  fulfils_truthy (env (finished (QuestionDialog (length deviceIds)))).
Definition user_declines (env : Behaviour) (deviceIds : list DeviceId) : bool :=
  fulfils_falsy (env (finished (QuestionDialog (length deviceIds)))).

(** [deleteDevicesWithInteractiveAuth] returns and its completion callback
    has been given [b]. *)
Definition api_reports (env : Behaviour) (deviceIds : list DeviceId) (b : bool) : bool :=
  fulfils (env (deleteDevicesWithInteractiveAuth deviceIds)) &&
  (if b then fulfils_truthy (env deferredSuccess_promise)
   else fulfils_falsy (env deferredSuccess_promise)).

(** The delegated-auth logout dialog throws. *)
Definition delegated_dialog_throws
  (env : Behaviour) (delegatedAuthAccountUrl : option string)
  (deviceIds : list DeviceId) : bool :=
  match truthy_str delegatedAuthAccountUrl with
  | Some url => rejects (env (finished (OidcLogoutDialog (head deviceIds) url)))
  | None => false
  end.

(** A request that gets as far as a deletion flow and fails there. *)
Definition sign_out_fails
  (env : Behaviour) (delegatedAuthAccountUrl : option string)
  (deviceIds : list DeviceId) : bool :=
  if delegated delegatedAuthAccountUrl
  then Nat.eqb (length deviceIds) 1 &&
       delegated_dialog_throws env delegatedAuthAccountUrl deviceIds
  else negb (Nat.eqb (length deviceIds) 0) &&
       user_confirms env deviceIds && api_reports env deviceIds false.

(** Lines 93-110: the emptiness, delegated-auth-size and confirmation
    guards all let the request through. *)
Definition passes_guards
  (env : Behaviour) (delegatedAuthAccountUrl : option string)
  (deviceIds : list DeviceId) : bool :=
  negb (Nat.eqb (length deviceIds) 0) &&
  (if delegated delegatedAuthAccountUrl
   then Nat.eqb (length deviceIds) 1
   else user_confirms env deviceIds).

(** One call of [onSignOutOtherDevices] on its own. *)
Definition run (env : Behaviour) (delegatedAuthAccountUrl : option string)
  (deviceIds : list DeviceId) (store : list DeviceId)
  : Outcome * State * list Event :=
  exec env (onSignOutOtherDevices delegatedAuthAccountUrl deviceIds)
       (mkState store false).

Definition outcome_of (r : Outcome * State * list Event) : Outcome := fst (fst r).
Definition store_of (r : Outcome * State * list Event) : list DeviceId :=
  signingOutDeviceIds (snd (fst r)).
Definition events_of (r : Outcome * State * list Event) : list Event := snd r.

(** ** Sample behaviours *)

Definition behaviour (question oidc api deferred callback : option Settle)
  : Behaviour :=
  fun c =>
    match c with
    | finished (QuestionDialog _) => question
    | finished (OidcLogoutDialog _ _) => oidc
    | finished LogoutDialog => None
    | deleteDevicesWithInteractiveAuth _ => api
    | deferredSuccess_promise => deferred
    | onSignoutResolvedCallback => callback
    end.

Definition yes : option Settle := Some (Fulfilled (VBool true)).
Definition no : option Settle := Some (Fulfilled (VBool false)).
Definition void : option Settle := Some (Fulfilled VUndefined).
Definition throws (e : Error) : option Settle := Some (Rejected e).

Definition DEV1 : DeviceId := "DEV1"%string.
Definition DEV2 : DeviceId := "DEV2"%string.
Definition DEV3 : DeviceId := "DEV3"%string.
Definition account_url : option string := Some "https://account.example/"%string.

(** Everything succeeds. *)
Definition all_good : Behaviour := behaviour yes yes void yes void.
(** The deletion succeeds but the device-list refresh rejects. *)
Definition refresh_fails : Behaviour :=
  behaviour yes yes void yes (throws "refresh failed"%string).
(** The user closes the confirmation dialog without confirming. *)
Definition declined : Behaviour := behaviour void yes void yes void.
(** Interactive auth is cancelled: the completion callback gets [false]. *)
Definition auth_cancelled : Behaviour := behaviour yes yes void no void.
(** The delegated-auth dialog throws. *)
Definition oidc_throws : Behaviour :=
  behaviour yes (throws "oidc"%string) void yes void.
(** The deletion API itself rejects. *)
Definition api_throws : Behaviour :=
  behaviour yes yes (throws "network"%string) None void.

(** ** The life of a request

    [idle -> in flight -> cleaned]: a request is in flight from the append
    of line 114 to the filter of lines 136-138. *)

Inductive Phase : Type :=
| Idle
| InFlight
| Cleaned.

Definition is_update (e : Effect) : bool :=
  match e with
  | setSigningOutDeviceIds _ => true
  | _ => false
  end.

(** [follows ids p t]: started in phase [p], the task [t] updates the
    React state only by appending [ids] once and, later, filtering [ids]
    out once. *)
Inductive follows (ids : list DeviceId) : Phase -> Task unit -> Prop :=
| follows_ret p a : follows ids p (Ret a)
| follows_throw p e : follows ids p (Throw e)
| follows_do p e k :
    is_update e = false -> follows ids p k -> follows ids p (Do e k)
| follows_append k :
    follows ids InFlight k ->
    follows ids Idle (Do (setSigningOutDeviceIds (Append ids)) k)
| follows_cleanup k :
    follows ids Cleaned k ->
    follows ids InFlight (Do (setSigningOutDeviceIds (FilterOut ids)) k)
| follows_assign p b k : follows ids p k -> follows ids p (Assign b k)
| follows_read p k : (forall b, follows ids p (k b)) -> follows ids p (Read k)
| follows_await p c k : (forall s, follows ids p (k s)) -> follows ids p (Await c k).

Definition status_follows (ids : list DeviceId) (p : Phase) (s : Status) : Prop :=
  match s with
  | Suspended _ k => forall s, follows ids p (k s)
  | Done _ => True
  end.

(** The phase a request is in, read off its trace. *)
Definition phase_of (tr : list Event) : Phase :=
  if existsb is_removal tr then Cleaned
  else if existsb is_append tr then InFlight
  else Idle.

Definition phase_after (p : Phase) (evs : list Event) : Phase :=
  if existsb is_removal evs then Cleaned
  else if existsb is_append evs
       then match p with Idle => InFlight | _ => p end
       else p.

Definition req_phase (r : Request) : Phase := phase_of (req_trace r).

(** Appended and not yet cleaned up. *)
Definition in_flight (r : Request) : bool :=
  existsb is_append (req_trace r) && negb (existsb is_removal (req_trace r)).

(** The phase of the [i]-th request, [Idle] before it has been made. *)
Definition phase_at (sys : System) (i : nat) : Phase :=
  match sys_requests sys !! i with
  | Some r => req_phase r
  | None => Idle
  end.

(** What a move from phase [p] to phase [p'] does to the React state. *)
Definition transition (ids : list DeviceId) (p p' : Phase)
  (store store' : list DeviceId) : Prop :=
  match p, p' with
  | Idle, Idle | InFlight, InFlight | Cleaned, Cleaned => store' = store
  | Idle, InFlight => store' = apply_updater (Append ids) store
  | InFlight, Cleaned => store' = apply_updater (FilterOut ids) store
  | Idle, Cleaned =>
      store' = apply_updater (FilterOut ids) (apply_updater (Append ids) store)
  | _, _ => False
  end.

Definition req_ok (r : Request) : Prop :=
  status_follows (req_deviceIds r) (req_phase r) (req_status r).

Definition sys_ok (sys : System) : Prop := Forall req_ok (sys_requests sys).

(** Requests over disjoint identifier sets. *)
Definition disjointb (a b : list DeviceId) : bool :=
  forallb (fun d => negb (includes b d)) a.

Fixpoint pairwiseb (l : list (list DeviceId)) : bool :=
  match l with
  | [] => true
  | a :: rest => forallb (disjointb a) rest && pairwiseb rest
  end.

Definition pairwise_disjoint (sys : System) : bool :=
  pairwiseb (req_deviceIds <$> sys_requests sys).

(** Two requests, [DEV1] then [DEV2; DEV3], both confirmed and waiting
    for interactive auth. *)
Definition two_disjoint_requests : list Stimulus :=
  [Invoke None [DEV1]; Invoke None [DEV2; DEV3];
   Settles 0 (Fulfilled (VBool true)); Settles 1 (Fulfilled (VBool true));
   Settles 0 (Fulfilled VUndefined); Settles 1 (Fulfilled VUndefined)].

(** Two requests that both name [DEV1], both confirmed and in flight; the
    first one is about to learn the result of interactive auth. *)
Definition two_overlapping_requests : list Stimulus :=
  [Invoke None [DEV1]; Invoke None [DEV1; DEV2];
   Settles 0 (Fulfilled (VBool true)); Settles 1 (Fulfilled (VBool true));
   Settles 0 (Fulfilled VUndefined)].

(** ** The rest of the tab

    What [SessionManagerTab] itself computes around the hook: the list of
    expanded rows, the other devices and the "sign out of all other
    sessions" action, the resolution callback it hands to [useSignOut],
    and the two props it derives from [signingOutDeviceIds]. *)

(** Lines 202-208: the value [onDeviceExpandToggle] passes to
    [setExpandedDeviceIds], from the [expandedDeviceIds] of the render. *)
Definition onDeviceExpandToggle
  (expandedDeviceIds : list DeviceId) (deviceId : DeviceId) : list DeviceId :=
  if includes expandedDeviceIds deviceId
  then List.filter (fun id => negb (String.eqb id deviceId)) expandedDeviceIds
  else expandedDeviceIds ++ [deviceId].

(** A JavaScript object used as a map, as the list of its own properties
    in enumeration order. *)
Definition Object_keys {V : Type} (o : list (string * V)) : list string :=
  map fst o.

(** [o[k]] *)
Definition property {V : Type} (o : list (string * V)) (k : string) : option V :=
  match List.find (fun kv => String.eqb (fst kv) k) o with
  | Some kv => Some (snd kv)
  | None => None
  end.

(** The object without its property [k]: the rest pattern of line 224 and
    the [delete] of line 226. *)
Definition omit {V : Type} (k : string) (o : list (string * V)) : list (string * V) :=
  List.filter (fun kv => negb (String.eqb (fst kv) k)) o.

(** Lines 224-227.  [ExtendedDevice] is declared outside this file; all
    the code reads of it is the truthiness of [isVerified]. *)
Definition otherDevices {Device : Type} (isVerified : Device -> bool)
  (devices : list (DeviceId * Device)) (currentDeviceId : DeviceId)
  (dehydratedDeviceId : option DeviceId) : list (DeviceId * Device) :=
  let otherDevices := omit currentDeviceId devices in
  match truthy_str dehydratedDeviceId with
  | Some dehydrated =>
      match property otherDevices dehydrated with
      | Some device =>
          if isVerified device then omit dehydrated otherDevices else otherDevices
      | None => otherDevices
      end
  | None => otherDevices
  end.

(** Lines 228-229. *)
Definition otherSessionsCount {Device : Type} (isVerified : Device -> bool)
  (devices : list (DeviceId * Device)) (currentDeviceId : DeviceId)
  (dehydratedDeviceId : option DeviceId) : nat :=
  length (Object_keys (otherDevices isVerified devices currentDeviceId dehydratedDeviceId)).

Definition shouldShowOtherSessions {Device : Type} (isVerified : Device -> bool)
  (devices : list (DeviceId * Device)) (currentDeviceId : DeviceId)
  (dehydratedDeviceId : option DeviceId) : bool :=
  Nat.ltb 0 (otherSessionsCount isVerified devices currentDeviceId dehydratedDeviceId).

(** Line 182. *)
Definition disableMultipleSignout (delegatedAuthAccountUrl : option string) : bool :=
  delegated delegatedAuthAccountUrl.

(** Lines 276-282: [undefined], or the call the action makes. *)
Definition signOutAllOtherSessions {Device : Type} (isVerified : Device -> bool)
  (delegatedAuthAccountUrl : option string)
  (devices : list (DeviceId * Device)) (currentDeviceId : DeviceId)
  (dehydratedDeviceId : option DeviceId) : option (Task unit) :=
  if shouldShowOtherSessions isVerified devices currentDeviceId dehydratedDeviceId
     && negb (disableMultipleSignout delegatedAuthAccountUrl)
  then Some (onSignOutOtherDevices delegatedAuthAccountUrl
               (Object_keys (otherDevices isVerified devices currentDeviceId
                                          dehydratedDeviceId)))
  else None.

(** Line 319: [isSigningOut] of the current device section. *)
Definition isSigningOut
  (signingOutDeviceIds : list DeviceId) (currentDeviceId : DeviceId) : bool :=
  includes signingOutDeviceIds currentDeviceId.

(** Line 333: [disabled] of the other sessions heading. *)
Definition headingDisabled (signingOutDeviceIds : list DeviceId) : bool :=
  negb (Nat.eqb (length signingOutDeviceIds) 0).

(** Lines 254-257: how [onSignoutResolvedCallback] settles, given how
    [refreshDevices] does, and the selection it leaves. *)
Definition onSignoutResolvedCallback_run
  (refreshDevices : option Settle) (selectedDeviceIds : list DeviceId)
  : option Settle * list DeviceId :=
  match refreshDevices with
  | None => (None, selectedDeviceIds)
  | Some (Rejected e) => (Some (Rejected e), selectedDeviceIds)
  | Some (Fulfilled _) => (Some (Fulfilled VUndefined), [])
  end.

(** Lines 258-262: the hook is given that callback. *)
Definition with_refresh (env : Behaviour) (refreshDevices : option Settle) : Behaviour :=
  fun c =>
    match c with
    | onSignoutResolvedCallback => fst (onSignoutResolvedCallback_run refreshDevices [])
    | _ => env c
    end.

(** The selection after a call of [onSignOutOtherDevices] with events
    [evs]: the callback's, if the call invoked it. *)
Definition selection_after (evs : list Event) (refreshDevices : option Settle)
  (selectedDeviceIds : list DeviceId) : list DeviceId :=
  if existsb is_callback evs
  then snd (onSignoutResolvedCallback_run refreshDevices selectedDeviceIds)
  else selectedDeviceIds.

(** ** More observations *)

(** The confirmation dialog and the interactive-auth deletion. *)
Definition is_interactive (ev : Event) : bool :=
  match ev with
  | EvDo (Modal_createDialog (QuestionDialog _)) => true
  | EvAwait (finished (QuestionDialog _)) => true
  | EvSettled (finished (QuestionDialog _)) _ => true
  | EvAwait (deleteDevicesWithInteractiveAuth _) => true
  | EvSettled (deleteDevicesWithInteractiveAuth _) _ => true
  | EvAwait deferredSuccess_promise => true
  | EvSettled deferredSuccess_promise _ => true
  | _ => false
  end.

(** The delegated-auth logout dialog. *)
Definition is_delegated (ev : Event) : bool :=
  match ev with
  | EvDo (Modal_createDialog (OidcLogoutDialog _ _)) => true
  | EvAwait (finished (OidcLogoutDialog _ _)) => true
  | EvSettled (finished (OidcLogoutDialog _ _)) _ => true
  | _ => false
  end.

(** The request gets through the guards and its deletion flow reports
    success. *)
Definition sign_out_succeeds
  (env : Behaviour) (delegatedAuthAccountUrl : option string)
  (deviceIds : list DeviceId) : bool :=
  negb (Nat.eqb (length deviceIds) 0) &&
  match truthy_str delegatedAuthAccountUrl with
  | Some url =>
      Nat.eqb (length deviceIds) 1 &&
      fulfils_truthy (env (finished (OidcLogoutDialog (head deviceIds) url)))
  | None => user_confirms env deviceIds && api_reports env deviceIds true
  end.

(** [drains ids p t]: [t] follows the protocol from phase [p] and never
    returns normally while the request is in flight. *)
Inductive drains (ids : list DeviceId) : Phase -> Task unit -> Prop :=
| drains_ret p a : p <> InFlight -> drains ids p (Ret a)
| drains_throw p e : drains ids p (Throw e)
| drains_do p e k :
    is_update e = false -> drains ids p k -> drains ids p (Do e k)
| drains_append k :
    drains ids InFlight k ->
    drains ids Idle (Do (setSigningOutDeviceIds (Append ids)) k)
| drains_cleanup k :
    drains ids Cleaned k ->
    drains ids InFlight (Do (setSigningOutDeviceIds (FilterOut ids)) k)
| drains_assign p b k : drains ids p k -> drains ids p (Assign b k)
| drains_read p k : (forall b, drains ids p (k b)) -> drains ids p (Read k)
| drains_await p c k : (forall s, drains ids p (k s)) -> drains ids p (Await c k).

Definition status_drains (ids : list DeviceId) (p : Phase) (s : Status) : Prop :=
  match s with
  | Suspended _ k => forall s, drains ids p (k s)
  | Done Resolved => p <> InFlight
  | Done (RejectedWith _) => True
  end.

Definition req_drains (r : Request) : Prop :=
  status_drains (req_deviceIds r) (req_phase r) (req_status r).

(** The request has resolved. *)
Definition resolved (r : Request) : bool :=
  match req_status r with
  | Done Resolved => true
  | _ => false
  end.

(** A device list for the examples: the payload is the [isVerified]
    flag. *)
Definition sample_devices : list (DeviceId * bool) :=
  [(DEV1, true); (DEV2, false); (DEV3, true)].

(** Two calls that run to their end: [DEV1] with interactive auth,
    [DEV2] under delegated auth. *)
Definition two_completed_requests : list Stimulus :=
  [Invoke None [DEV1]; Invoke account_url [DEV2];
   Settles 0 (Fulfilled (VBool true)); Settles 1 (Fulfilled (VBool false));
   Settles 0 (Fulfilled VUndefined); Settles 0 (Fulfilled (VBool true));
   Settles 0 (Fulfilled VUndefined)].

(** ** Requests that get in each other's way *)



Definition actor_ids (sys : System) (ev : Stimulus) : list DeviceId :=
  match ev with
  | Invoke _ deviceIds => deviceIds
  | Settles k _ =>
      match sys_requests sys !! k with
      | Some r => req_deviceIds r
      | None => []
      end
  end.


Definition sys_continue (more : list Stimulus) (sys : System) : System :=
  fold_left (fun sys ev => sys_step ev sys) more sys.






(** A first request for [DEV1] is declined; it is asked for again while
    [DEV2] is asked for too, and both are waiting for interactive auth. *)
Definition retry_and_other : list Stimulus :=
  [Invoke None [DEV1]; Settles 0 (Fulfilled (VBool false));
   Invoke None [DEV1]; Invoke None [DEV2];
   Settles 1 (Fulfilled (VBool true)); Settles 2 (Fulfilled (VBool true));
   Settles 1 (Fulfilled VUndefined); Settles 2 (Fulfilled VUndefined)].




(** ** Proof automation *)

Ltac case_env :=
  match goal with
  | |- context [match ?env ?c with _ => _ end] =>
      let E := fresh "E" in
      destruct (env c) as [[[|[|]]|?]|] eqn:E
  end.

Ltac use_env :=
  repeat match goal with
         | E : ?env ?c = _, H : context [?env ?c] |- _ =>
             lazymatch type of H with
             | env c = _ => fail
             | _ => rewrite E in H
             end
         end.

Ltac unfold_obs :=
  unfold sign_out_fails, passes_guards in *;
  unfold user_confirms, user_declines, api_reports, delegated_dialog_throws in *;
  unfold fulfils, fulfils_truthy, fulfils_falsy, rejects,
    outcome_of, store_of, events_of in *.

(** Follow the call through every answer the collaborators can give. *)
Ltac walk := repeat (case_env; use_env; simpl in *; try discriminate).

Ltac find_in := repeat first [left; reflexivity | right].

(** ** Lists of identifiers *)

Arguments apply_updater : simpl never.

Lemma includes_In (deviceIds : list DeviceId) (d : DeviceId) :
  includes deviceIds d = true <-> In d deviceIds.
Proof.
  unfold includes. rewrite existsb_exists. split.
  - intros [x [Hx Heq]]. apply String.eqb_eq in Heq. now subst.
  - intros H. exists d. split; [assumption | apply String.eqb_refl].
Qed.

Lemma In_filter_out (deviceIds store : list DeviceId) (d : DeviceId) :
  In d (apply_updater (FilterOut deviceIds) store) <->
  In d store /\ ~ In d deviceIds.
Proof.
  unfold apply_updater. rewrite filter_In, negb_true_iff, <- (includes_In deviceIds d).
  destruct (includes deviceIds d); intuition congruence.
Qed.

Lemma filter_out_removes (deviceIds store : list DeviceId) (d : DeviceId) :
  In d deviceIds -> ~ In d (apply_updater (FilterOut deviceIds) store).
Proof. rewrite In_filter_out. tauto. Qed.

Lemma In_append (deviceIds store : list DeviceId) (d : DeviceId) :
  In d (apply_updater (Append deviceIds) store) <-> In d store \/ In d deviceIds.
Proof. unfold apply_updater. apply in_app_iff. Qed.

(** The state a run ends in is the initial state with the logged updates
    applied in order. *)
Lemma exec_replay (env : Behaviour) (t : Task unit) :
  forall st, store_of (exec env t st) = replay (events_of (exec env t st))
                                              (signingOutDeviceIds st).
Proof.
  unfold store_of, events_of.
  induction t as [a|e|e k IH|b k IH|k H|c k IH]; intros st; simpl;
    try reflexivity.
  - specialize (IH (do_effect e st)).
    destruct (exec env k (do_effect e st)) as [[o st'] evs]. simpl in *.
    rewrite IH. destruct e; reflexivity.
  - apply (IH (mkState (signingOutDeviceIds st) b)).
  - apply H.
  - destruct (env c) as [s|]; [|reflexivity].
    specialize (IH s st). destruct (exec env (k s) st) as [[o st'] evs].
    simpl in *. exact IH.
Qed.

(** [exec] is [advance] iterated: a single request driven by a fixed
    behaviour goes through the same synchronous stretches as a request of
    the interleaved system. *)
Lemma exec_advance (env : Behaviour) (t : Task unit) :
  forall st,
    exec env t st =
    match advance t st with
    | (Done r, st', evs) => (Completed r, st', evs)
    | (Suspended c k, st', evs) =>
        match env c with
        | None => (PendingOn c, st', evs)
        | Some s =>
            let '(o, st'', evs') := exec env (k s) st' in
            (o, st'', evs ++ EvSettled c s :: evs')
        end
    end.
Proof.
  induction t as [a|e|e k IH|b k IH|k H|c k IH]; intros st; simpl;
    try reflexivity.
  - rewrite IH. destruct (advance k (do_effect e st)) as [[[c' k'|r] st'] evs];
      [|reflexivity].
    destruct (env c') as [s|]; [|reflexivity].
    destruct (exec env (k' s) st') as [[o st''] evs']. reflexivity.
  - apply IH.
  - apply H.
Qed.

(** ** A single request *)

(** C8: an empty request is a silent no-op: the call is already complete
    when it returns, with nothing logged, no dialog, no deletion call and
    the in-flight list untouched. *)
Theorem empty_request_is_noop (url : option string) :
  onSignOutOtherDevices url [] = Ret tt /\
  (forall env store,
     run env url [] store = (Completed Resolved, mkState store false, [])) /\
  (forall st, advance (onSignOutOtherDevices url []) st = (Done Resolved, st, [])).
Proof. repeat split. Qed.

(** C5: under delegated auth a request for more than one device only
    logs the warning: no dialog, no deletion call, and the in-flight list
    is never touched. *)
Theorem delegated_multi_device_only_warns
  (env : Behaviour) (url : option string) (ids store : list DeviceId) :
  delegated url = true ->
  1 < length ids ->
  run env url ids store =
    (Completed Resolved, mkState store false, [EvDo (logger_warn warn_multiple)]) /\
  existsb is_deletion_flow (events_of (run env url ids store)) = false /\
  existsb is_append (events_of (run env url ids store)) = false.
Proof.
  intros Hd Hlen. unfold run, onSignOutOtherDevices. rewrite Hd.
  destruct ids as [|d [|d' l]]; simpl in Hlen; try lia.
  repeat split.
Qed.

Lemma delegated_multi_device_only_warns_witness :
  run all_good account_url [DEV1; DEV2] [DEV3] =
    (Completed Resolved, mkState [DEV3] false, [EvDo (logger_warn warn_multiple)]) /\
  existsb is_deletion_flow (events_of (run all_good account_url [DEV1; DEV2] [DEV3])) = false /\
  existsb is_append (events_of (run all_good account_url [DEV1; DEV2] [DEV3])) = false.
Proof.
  apply (delegated_multi_device_only_warns all_good account_url [DEV1; DEV2] [DEV3]).
  - reflexivity.
  - simpl. lia.
Defined.

(** C4: without delegated auth, declining the confirmation dialog ends
    the call with the in-flight list unchanged; the only events are the
    dialog and its answer, so the deletion API is never invoked. *)
Theorem declined_confirmation_aborts
  (env : Behaviour) (url : option string) (ids store : list DeviceId) :
  ids <> [] ->
  delegated url = false ->
  user_declines env ids = true ->
  (exists v,
     run env url ids store =
       (Completed Resolved, mkState store false,
        [EvDo (Modal_createDialog (QuestionDialog (length ids)));
         EvAwait (finished (QuestionDialog (length ids)));
         EvSettled (finished (QuestionDialog (length ids))) (Fulfilled v)])) /\
  store_of (run env url ids store) = store /\
  existsb is_deletion_flow (events_of (run env url ids store)) = false.
Proof.
  intros Hne Hd Hu. unfold run, onSignOutOtherDevices. rewrite Hd.
  destruct ids as [|d l]; [congruence|].
  unfold_obs. simpl in *. walk.
  all: repeat split; eexists; reflexivity.
Qed.

Lemma declined_confirmation_aborts_witness :
  (exists v,
     run declined None [DEV1; DEV2] [DEV3] =
       (Completed Resolved, mkState [DEV3] false,
        [EvDo (Modal_createDialog (QuestionDialog 2));
         EvAwait (finished (QuestionDialog 2));
         EvSettled (finished (QuestionDialog 2)) (Fulfilled v)])) /\
  store_of (run declined None [DEV1; DEV2] [DEV3]) = [DEV3] /\
  existsb is_deletion_flow (events_of (run declined None [DEV1; DEV2] [DEV3])) = false.
Proof.
  apply (declined_confirmation_aborts declined None [DEV1; DEV2] [DEV3]).
  - discriminate.
  - reflexivity.
  - reflexivity.
Defined.

(** C1 (amended): a single-device interactive-auth sign-out in which the
    user confirms, the deletion API reports success and the resolution
    callback resolves appends the device once, right before the deletion
    call, invokes the callback once, and runs the cleanup once, after
    which the device is no longer in the in-flight list. *)
Theorem single_device_sign_out_resolves
  (env : Behaviour) (url : option string) (d : DeviceId) (store : list DeviceId) :
  delegated url = false ->
  user_confirms env [d] = true ->
  api_reports env [d] true = true ->
  fulfils (env onSignoutResolvedCallback) = true ->
  (exists s1 s2 s3 s4,
     run env url [d] store =
       (Completed Resolved,
        mkState (apply_updater (FilterOut [d]) (apply_updater (Append [d]) store)) true,
        [EvDo (Modal_createDialog (QuestionDialog 1));
         EvAwait (finished (QuestionDialog 1));
         EvSettled (finished (QuestionDialog 1)) s1;
         EvDo (setSigningOutDeviceIds (Append [d]));
         EvAwait (deleteDevicesWithInteractiveAuth [d]);
         EvSettled (deleteDevicesWithInteractiveAuth [d]) s2;
         EvAwait deferredSuccess_promise;
         EvSettled deferredSuccess_promise s3;
         EvAwait onSignoutResolvedCallback;
         EvSettled onSignoutResolvedCallback s4;
         EvDo (setSigningOutDeviceIds (FilterOut [d]))])) /\
  count is_append (events_of (run env url [d] store)) = 1 /\
  count is_removal (events_of (run env url [d] store)) = 1 /\
  count is_callback (events_of (run env url [d] store)) = 1 /\
  In d (apply_updater (Append [d]) store) /\
  ~ In d (store_of (run env url [d] store)).
Proof.
  intros Hd Hu Ha Hc.
  assert (Hin : In d (apply_updater (Append [d]) store))
    by (apply In_append; right; left; reflexivity).
  assert (Hout : forall s, ~ In d (apply_updater (FilterOut [d]) s))
    by (intros s; apply filter_out_removes; left; reflexivity).
  unfold run, onSignOutOtherDevices. rewrite Hd.
  unfold signOutDevices, delegated in *.
  destruct (truthy_str url); [discriminate|].
  unfold_obs. simpl in *.
  walk.
  all: repeat split; try assumption; try apply Hout.
  all: do 4 eexists; reflexivity.
Qed.

Lemma single_device_sign_out_resolves_witness :
  count is_append (events_of (run all_good None [DEV1] [])) = 1 /\
  count is_removal (events_of (run all_good None [DEV1] [])) = 1 /\
  count is_callback (events_of (run all_good None [DEV1] [])) = 1 /\
  ~ In DEV1 (store_of (run all_good None [DEV1] [])).
Proof.
  destruct (single_device_sign_out_resolves all_good None DEV1 [])
    as (_ & H1 & H2 & H3 & _ & H4); try reflexivity.
  repeat split; assumption.
Defined.

(** C1 as stated fails when the resolution callback rejects: the deletion
    succeeded and the callback was invoked, but the cleanup never runs and
    the device stays in the in-flight list. *)
Lemma rejected_resolution_skips_cleanup :
  delegated None = false /\
  user_confirms refresh_fails [DEV1] = true /\
  api_reports refresh_fails [DEV1] true = true /\
  count is_callback (events_of (run refresh_fails None [DEV1] [])) = 1 /\
  count is_removal (events_of (run refresh_fails None [DEV1] [])) = 0 /\
  In DEV1 (store_of (run refresh_fails None [DEV1] [])).
Proof. repeat split. left. reflexivity. Qed.

(** C3: a request that fails (interactive auth reports [false], or the
    delegated-auth dialog throws) completes without invoking the
    resolution callback, and its cleanup removes every requested
    identifier from the in-flight list. *)
Theorem failed_sign_out_is_cleaned_up
  (env : Behaviour) (url : option string) (ids store : list DeviceId) :
  sign_out_fails env url ids = true ->
  outcome_of (run env url ids store) = Completed Resolved /\
  count is_callback (events_of (run env url ids store)) = 0 /\
  count is_removal (events_of (run env url ids store)) = 1 /\
  store_of (run env url ids store) =
    apply_updater (FilterOut ids) (apply_updater (Append ids) store) /\
  (forall d, In d ids -> ~ In d (store_of (run env url ids store))).
Proof.
  intros Hf.
  assert (Hout : forall s d, In d ids -> ~ In d (apply_updater (FilterOut ids) s))
    by (intros s d; apply filter_out_removes).
  unfold run, onSignOutOtherDevices, signOutDevices, sign_out_fails in *.
  unfold_obs. unfold delegated in *.
  destruct (truthy_str url) as [u|]; simpl in *.
  - destruct ids as [|d [|d' l]]; simpl in *; try discriminate.
    walk. all: repeat split; apply Hout.
  - destruct ids as [|d l]; simpl in *; try discriminate.
    walk. all: repeat split; apply Hout.
Qed.

Lemma failed_sign_out_is_cleaned_up_witness :
  (outcome_of (run auth_cancelled None [DEV1; DEV2] [DEV3]) = Completed Resolved /\
   store_of (run auth_cancelled None [DEV1; DEV2] [DEV3]) = [DEV3]) /\
  (outcome_of (run oidc_throws account_url [DEV1] [DEV3]) = Completed Resolved /\
   count is_callback (events_of (run oidc_throws account_url [DEV1] [DEV3])) = 0 /\
   ~ In DEV1 (store_of (run oidc_throws account_url [DEV1] [DEV3]))).
Proof.
  split.
  - destruct (failed_sign_out_is_cleaned_up auth_cancelled None [DEV1; DEV2] [DEV3])
      as (H1 & _ & _ & H2 & _); [reflexivity|].
    split; [exact H1 | exact H2].
  - destruct (failed_sign_out_is_cleaned_up oidc_throws account_url [DEV1] [DEV3])
      as (H1 & H2 & _ & _ & H3); [reflexivity|].
    split; [exact H1 | split; [exact H2 | apply H3; left; reflexivity]].
Defined.

(** C2 as stated fails: the resolution callback runs inside the [finally]
    block, outside every [catch], so its rejection becomes the rejection
    of [onSignOutOtherDevices] itself. *)
Lemma rejected_resolution_propagates :
  outcome_of (run refresh_fails account_url [DEV1] []) =
    Completed (RejectedWith "refresh failed"%string).
Proof. reflexivity. Qed.

(** C2 (amended): as long as neither the confirmation dialog nor the
    resolution callback rejects, the call never rejects, whatever the
    delegated-auth dialog, the deletion API and its deferred result do;
    and every rejection met on the way has been logged. *)
Theorem deletion_errors_are_absorbed
  (env : Behaviour) (url : option string) (ids store : list DeviceId) :
  rejects (env (finished (QuestionDialog (length ids)))) = false ->
  rejects (env onSignoutResolvedCallback) = false ->
  (forall e, outcome_of (run env url ids store) <> Completed (RejectedWith e)) /\
  (forall c e,
     In (EvSettled c (Rejected e)) (events_of (run env url ids store)) ->
     exists msg, In (EvDo (logger_error msg e)) (events_of (run env url ids store))).
Proof.
  intros Hq Hc.
  unfold run, onSignOutOtherDevices, signOutDevices, delegated.
  unfold_obs.
  destruct (truthy_str url) as [u|]; destruct ids as [|d [|d' l]]; simpl in *.
  all: walk.
  all: split; [intros err; discriminate|].
  all: intros c err HIn; simpl in HIn.
  all: repeat (destruct HIn as [HIn|HIn]; try discriminate HIn);
       try contradiction.
  all: injection HIn as <- <-; eexists; simpl; find_in.
Qed.

Lemma deletion_errors_are_absorbed_witness :
  outcome_of (run api_throws None [DEV1; DEV2] []) <> Completed (RejectedWith "network"%string) /\
  exists msg,
    In (EvDo (logger_error msg "network"%string))
       (events_of (run api_throws None [DEV1; DEV2] [])).
Proof.
  destruct (deletion_errors_are_absorbed api_throws None [DEV1; DEV2] [])
    as [H1 H2]; try reflexivity.
  split.
  - apply H1.
  - apply (H2 (deleteDevicesWithInteractiveAuth [DEV1; DEV2])).
    simpl. find_in.
Defined.

(** C7: a request that passes the three guards appends all its
    identifiers to the in-flight list before anything of the deletion
    flow happens: the append is immediately followed by the first step of
    the deletion flow and nothing before it touches the network. *)
Theorem in_flight_before_network
  (env : Behaviour) (url : option string) (ids store : list DeviceId) :
  passes_guards env url ids = true ->
  exists pre call post,
    events_of (run env url ids store) =
      pre ++ EvDo (setSigningOutDeviceIds (Append ids)) :: call :: post /\
    existsb is_network pre = false /\
    is_deletion_flow call = true /\
    replay (pre ++ [EvDo (setSigningOutDeviceIds (Append ids))]) store = store ++ ids /\
    incl ids (replay (pre ++ [EvDo (setSigningOutDeviceIds (Append ids))]) store).
Proof.
  intros Hg.
  unfold run, onSignOutOtherDevices, signOutDevices, delegated in *.
  unfold_obs. unfold delegated in *.
  destruct (truthy_str url) as [u|]; destruct ids as [|d [|d' l]];
    simpl in *; try discriminate.
  all: walk.
  all: first
    [ exists []; do 2 eexists; split; [reflexivity|]
    | eexists [_; _; _]; do 2 eexists; split; [reflexivity|] ].
  all: repeat split; try reflexivity.
  all: unfold replay, apply_updater; simpl; apply incl_appr, incl_refl.
Qed.

Lemma in_flight_before_network_witness :
  exists pre call post,
    events_of (run all_good None [DEV1; DEV2] [DEV3]) =
      pre ++ EvDo (setSigningOutDeviceIds (Append [DEV1; DEV2])) :: call :: post /\
    existsb is_network pre = false /\
    is_deletion_flow call = true /\
    replay (pre ++ [EvDo (setSigningOutDeviceIds (Append [DEV1; DEV2]))]) [DEV3] =
      [DEV3; DEV1; DEV2].
Proof.
  destruct (in_flight_before_network all_good None [DEV1; DEV2] [DEV3])
    as (pre & call & post & H1 & H2 & H3 & H4 & _); [reflexivity|].
  exists pre, call, post. repeat split; assumption.
Defined.

(** A call on its own: when the resolution callback is invoked, every
    requested identifier is in the in-flight list and no cleanup has run
    yet; the cleanup is the step that follows the fulfilment of the
    callback's promise, and while that promise is pending (or if it
    rejects) the identifiers stay in the list. *)
Theorem cleanup_waits_for_resolution
  (env : Behaviour) (url : option string) (ids store : list DeviceId) :
  existsb is_callback (events_of (run env url ids store)) = true ->
  exists pre rest,
    events_of (run env url ids store) =
      pre ++ EvAwait onSignoutResolvedCallback :: rest /\
    existsb is_removal pre = false /\
    replay pre store = store ++ ids /\
    ((rest = [] /\
      outcome_of (run env url ids store) = PendingOn onSignoutResolvedCallback /\
      store_of (run env url ids store) = store ++ ids) \/
     (exists e,
        rest = [EvSettled onSignoutResolvedCallback (Rejected e)] /\
        store_of (run env url ids store) = store ++ ids) \/
     (exists v,
        rest = [EvSettled onSignoutResolvedCallback (Fulfilled v);
                EvDo (setSigningOutDeviceIds (FilterOut ids))])).
Proof.
  unfold run, onSignOutOtherDevices, signOutDevices, delegated.
  unfold_obs.
  destruct (truthy_str url) as [u|]; destruct ids as [|d [|d' l]];
    simpl; try discriminate.
  all: walk.
  all: intros Hcb; try discriminate Hcb.
  all: first
    [ eexists [_; _; _; _]; eexists; split; [reflexivity|]
    | eexists [_; _; _; _; _; _; _; _]; eexists; split; [reflexivity|] ].
  all: split; [reflexivity|]; split; [reflexivity|].
  all: first
    [ left; repeat split; reflexivity
    | right; left; eexists; split; reflexivity
    | right; right; eexists; reflexivity ].
Qed.

Lemma cleanup_waits_for_resolution_witness :
  exists pre rest,
    events_of (run all_good account_url [DEV1] [DEV3]) =
      pre ++ EvAwait onSignoutResolvedCallback :: rest /\
    existsb is_removal pre = false /\
    replay pre [DEV3] = [DEV3; DEV1].
Proof.
  destruct (cleanup_waits_for_resolution all_good account_url [DEV1] [DEV3])
    as (pre & rest & H1 & H2 & H3 & _); [reflexivity|].
  exists pre, rest. repeat split; assumption.
Defined.

(** ** Interleaved requests *)

Lemma phase_of_app (tr evs : list Event) :
  phase_of (tr ++ evs) = phase_after (phase_of tr) evs.
Proof.
  unfold phase_of, phase_after. rewrite !existsb_app.
  destruct (existsb is_removal tr), (existsb is_removal evs),
    (existsb is_append tr), (existsb is_append evs); reflexivity.
Qed.

Lemma phase_after_settled (p : Phase) (c : Call) (s : Settle) (evs : list Event) :
  phase_after p (EvSettled c s :: evs) = phase_after p evs.
Proof. reflexivity. Qed.

Lemma in_flight_phase (r : Request) :
  in_flight r = true <-> req_phase r = InFlight.
Proof.
  unfold in_flight, req_phase, phase_of.
  destruct (existsb is_removal (req_trace r)), (existsb is_append (req_trace r));
    simpl; split; congruence.
Qed.

Lemma transition_refl (ids : list DeviceId) (p : Phase) (store : list DeviceId) :
  transition ids p p store store.
Proof. destruct p; reflexivity. Qed.

(** A request only ever changes the membership of its own identifiers. *)
Lemma transition_frame (ids : list DeviceId) (p p' : Phase)
  (store store' : list DeviceId) (d : DeviceId) :
  transition ids p p' store store' -> ~ In d ids ->
  (In d store' <-> In d store).
Proof.
  intros Ht Hd. destruct p, p'; simpl in Ht; try contradiction; subst;
    rewrite ?In_filter_out, ?In_append; tauto.
Qed.

(** One synchronous stretch of a task that follows the protocol moves the
    request along it. *)
Lemma advance_follows (ids : list DeviceId) (p : Phase) (t : Task unit) :
  follows ids p t ->
  forall st,
    status_follows ids (phase_after p (snd (advance t st))) (fst (fst (advance t st))) /\
    transition ids p (phase_after p (snd (advance t st)))
               (signingOutDeviceIds st)
               (signingOutDeviceIds (snd (fst (advance t st)))).
Proof.
  induction 1 as [p a|p e|p e k He Hk IH|k Hk IH|k Hk IH|p b k Hk IH
                 |p k Hk IH|p c k Hk IH]; intros st; simpl.
  - split; [exact I | apply transition_refl].
  - split; [exact I | apply transition_refl].
  - specialize (IH (do_effect e st)).
    destruct (advance k (do_effect e st)) as [[s st'] evs]. simpl in *.
    assert (Hp : phase_after p (EvDo e :: evs) = phase_after p evs)
      by (destruct e; try discriminate; reflexivity).
    assert (Hs : signingOutDeviceIds (do_effect e st) = signingOutDeviceIds st)
      by (destruct e; try discriminate; reflexivity).
    rewrite Hp, <- Hs. exact IH.
  - specialize (IH (do_effect (setSigningOutDeviceIds (Append ids)) st)).
    destruct (advance k _) as [[s st'] evs]. simpl in *.
    unfold phase_after in *. simpl.
    destruct (existsb is_removal evs), (existsb is_append evs); simpl in *;
      exact IH.
  - specialize (IH (do_effect (setSigningOutDeviceIds (FilterOut ids)) st)).
    destruct (advance k _) as [[s st'] evs]. simpl in *.
    unfold phase_after in *. simpl.
    destruct (existsb is_removal evs), (existsb is_append evs); simpl in *;
      destruct IH as [IH1 IH2]; subst; split; auto.
  - apply (IH (mkState (signingOutDeviceIds st) b)).
  - apply IH.
  - split; [exact Hk | apply transition_refl].
Qed.

Ltac follow :=
  repeat first
    [ apply follows_ret
    | apply follows_throw
    | apply follows_append
    | apply follows_cleanup
    | apply follows_do; [reflexivity|]
    | apply follows_assign
    | apply follows_read; intros []; simpl
    | apply follows_await; intros [[|[|]]|?]; simpl ].

(** [onSignOutOtherDevices] follows the protocol from [Idle]. *)
Lemma onSignOutOtherDevices_follows (url : option string) (ids : list DeviceId) :
  follows ids Idle (onSignOutOtherDevices url ids).
Proof.
  unfold onSignOutOtherDevices, signOutDevices, delegated.
  destruct (Nat.eqb (length ids) 0); [follow|].
  destruct (truthy_str url) as [u|]; simpl.
  - destruct (negb (Nat.eqb (length ids) 1)); simpl; follow.
  - follow.
Qed.

Lemma invoke_spec (url : option string) (ids : list DeviceId) (sys : System) :
  exists r',
    sys_requests (sys_step (Invoke url ids) sys) = sys_requests sys ++ [r'] /\
    req_deviceIds r' = ids /\
    req_ok r' /\
    transition ids Idle (req_phase r')
               (sys_signingOutDeviceIds sys)
               (sys_signingOutDeviceIds (sys_step (Invoke url ids) sys)).
Proof.
  unfold sys_step.
  pose proof (advance_follows ids Idle _ (onSignOutOtherDevices_follows url ids)
                (mkState (sys_signingOutDeviceIds sys) false)) as H.
  destruct (advance _ _) as [[status st] evs]. simpl in *.
  eexists. split; [reflexivity|]. unfold req_ok, req_phase. simpl.
  change (phase_of evs) with (phase_of ([] ++ evs)). rewrite phase_of_app.
  destruct H as [H1 H2]. auto.
Qed.

Lemma settles_spec (i : nat) (s : Settle) (sys : System) :
  sys_ok sys ->
  sys_step (Settles i s) sys = sys \/
  exists r r',
    sys_requests sys !! i = Some r /\
    sys_requests (sys_step (Settles i s) sys) = <[i := r']> (sys_requests sys) /\
    req_deviceIds r' = req_deviceIds r /\
    req_ok r' /\
    transition (req_deviceIds r) (req_phase r) (req_phase r')
               (sys_signingOutDeviceIds sys)
               (sys_signingOutDeviceIds (sys_step (Settles i s) sys)).
Proof.
  intros Hok. unfold sys_step.
  destruct (sys_requests sys !! i) as [r|] eqn:Hi; [|left; reflexivity].
  destruct (req_status r) as [c k|o] eqn:Hst; [|left; reflexivity].
  right.
  assert (Hr : req_ok r) by (eapply Forall_lookup_1; eassumption).
  unfold req_ok in Hr. rewrite Hst in Hr. simpl in Hr.
  pose proof (advance_follows _ _ _ (Hr s)
                (mkState (sys_signingOutDeviceIds sys) (req_success r))) as H.
  destruct (advance _ _) as [[status st] evs]. simpl in *.
  exists r. eexists. split; [reflexivity|]. split; [reflexivity|].
  unfold req_ok, req_phase in *. simpl.
  rewrite phase_of_app, phase_after_settled.
  destruct H as [H1 H2]. auto.
Qed.

(** Every step is a move of one request along its protocol; the other
    requests are left as they were. *)
Lemma sys_step_spec (ev : Stimulus) (sys : System) :
  sys_ok sys ->
  sys_step ev sys = sys \/
  exists i r',
    sys_requests (sys_step ev sys) !! i = Some r' /\
    req_ok r' /\
    (forall j, j <> i ->
       sys_requests (sys_step ev sys) !! j = sys_requests sys !! j) /\
    (forall r, sys_requests sys !! i = Some r ->
       req_deviceIds r = req_deviceIds r') /\
    transition (req_deviceIds r') (phase_at sys i) (req_phase r')
               (sys_signingOutDeviceIds sys)
               (sys_signingOutDeviceIds (sys_step ev sys)).
Proof.
  intros Hok. destruct ev as [url ids|i s].
  - right. destruct (invoke_spec url ids sys) as (r' & Hreqs & Hids & Hr & Ht).
    exists (length (sys_requests sys)), r'. rewrite Hreqs.
    assert (Hnone : sys_requests sys !! length (sys_requests sys) = None)
      by (apply lookup_ge_None_2; lia).
    repeat split.
    + apply list_lookup_middle. reflexivity.
    + exact Hr.
    + intros j Hj. destruct (decide (j < length (sys_requests sys))) as [Hlt|Hge].
      * apply lookup_app_l. exact Hlt.
      * rewrite (lookup_ge_None_2 (sys_requests sys) j) by lia.
        apply lookup_ge_None_2. rewrite length_app. simpl. lia.
    + intros r Hr0. congruence.
    + unfold phase_at. rewrite Hnone, Hids. exact Ht.
  - destruct (settles_spec i s sys Hok) as [Heq|(r & r' & Hi & Hreqs & Hids & Hr & Ht)];
      [left; exact Heq|].
    right. exists i, r'. rewrite Hreqs. repeat split.
    + apply list_lookup_insert_eq. eapply lookup_lt_Some. exact Hi.
    + exact Hr.
    + intros j Hj. apply list_lookup_insert_ne. congruence.
    + intros r0 Hr0. congruence.
    + unfold phase_at. rewrite Hi, Hids. exact Ht.
Qed.

Lemma sys_step_ok (ev : Stimulus) (sys : System) :
  sys_ok sys -> sys_ok (sys_step ev sys).
Proof.
  intros Hok.
  destruct (sys_step_spec ev sys Hok) as [Heq|(i & r' & Hi & Hr & Hother & _)].
  - rewrite Heq. exact Hok.
  - apply Forall_lookup_2. intros j x Hj.
    destruct (decide (j = i)) as [->|Hne].
    + congruence.
    + rewrite Hother in Hj by exact Hne.
      eapply Forall_lookup_1; eassumption.
Qed.

Lemma sys_run_snoc (schedule : list Stimulus) (ev : Stimulus) :
  sys_run (schedule ++ [ev]) = sys_step ev (sys_run schedule).
Proof. unfold sys_run. rewrite fold_left_app. reflexivity. Qed.

(** Every request of a reachable system is a state of
    [onSignOutOtherDevices]. *)
Lemma sys_run_ok (schedule : list Stimulus) : sys_ok (sys_run schedule).
Proof.
  induction schedule as [|ev schedule IH] using rev_ind.
  - constructor.
  - rewrite sys_run_snoc. apply sys_step_ok. exact IH.
Qed.

(** *** Disjoint requests *)

Lemma disjointb_spec (a b : list DeviceId) :
  disjointb a b = true <-> forall d, In d a -> ~ In d b.
Proof.
  unfold disjointb. rewrite forallb_forall. split; intros H d Hd.
  - specialize (H d Hd). rewrite negb_true_iff in H.
    rewrite <- includes_In. congruence.
  - rewrite negb_true_iff. specialize (H d Hd).
    rewrite <- includes_In in H. destruct (includes b d); congruence.
Qed.

Lemma pairwiseb_lookup (l : list (list DeviceId)) :
  pairwiseb l = true ->
  forall i j a b, i < j -> l !! i = Some a -> l !! j = Some b ->
                  disjointb a b = true.
Proof.
  induction l as [|x l IH]; intros Hp i j a b Hlt Hi Hj.
  - discriminate.
  - simpl in Hp. apply andb_true_iff in Hp as [Hx Hl].
    destruct j as [|j]; [lia|]. destruct i as [|i]; simpl in *.
    + injection Hi as <-. rewrite forallb_forall in Hx. apply Hx.
      apply list_elem_of_In. eapply list_elem_of_lookup_2. exact Hj.
    + apply (IH Hl i j); [lia | assumption | assumption].
Qed.

Lemma pairwiseb_app_l (l extra : list (list DeviceId)) :
  pairwiseb (l ++ extra) = true -> pairwiseb l = true.
Proof.
  induction l as [|x l IH]; simpl; [reflexivity|].
  rewrite forallb_app, !andb_true_iff. intros [[H1 _] H2]. auto.
Qed.

Lemma pairwise_disjoint_lookup (sys : System) (i j : nat) (ri rj : Request) :
  pairwise_disjoint sys = true -> i <> j ->
  sys_requests sys !! i = Some ri -> sys_requests sys !! j = Some rj ->
  forall d, In d (req_deviceIds ri) -> ~ In d (req_deviceIds rj).
Proof.
  unfold pairwise_disjoint. intros Hp Hij Hi Hj d Hdi Hdj.
  assert (Hi' : (req_deviceIds <$> sys_requests sys) !! i = Some (req_deviceIds ri))
    by (rewrite list_lookup_fmap, Hi; reflexivity).
  assert (Hj' : (req_deviceIds <$> sys_requests sys) !! j = Some (req_deviceIds rj))
    by (rewrite list_lookup_fmap, Hj; reflexivity).
  destruct (decide (i < j)) as [Hlt|Hge].
  - pose proof (pairwiseb_lookup _ Hp i j _ _ Hlt Hi' Hj') as Hd.
    rewrite disjointb_spec in Hd. exact (Hd d Hdi Hdj).
  - assert (Hlt : j < i) by lia.
    pose proof (pairwiseb_lookup _ Hp j i _ _ Hlt Hj' Hi') as Hd.
    rewrite disjointb_spec in Hd. exact (Hd d Hdj Hdi).
Qed.

(** The identifier lists of the requests made so far never change. *)
Lemma sys_step_ids (ev : Stimulus) (sys : System) :
  exists extra,
    req_deviceIds <$> sys_requests (sys_step ev sys) =
    (req_deviceIds <$> sys_requests sys) ++ extra.
Proof.
  destruct ev as [url ids|i s]; unfold sys_step.
  - destruct (advance _ _) as [[status st] evs]. simpl.
    eexists. apply fmap_app.
  - exists []. rewrite app_nil_r.
    destruct (sys_requests sys !! i) as [r|] eqn:Hi; [|reflexivity].
    destruct (req_status r) as [c k|o]; [|reflexivity].
    destruct (advance _ _) as [[status st] evs]. simpl.
    rewrite list_fmap_insert. simpl. apply list_insert_id.
    rewrite list_lookup_fmap, Hi. reflexivity.
Qed.

Lemma pairwise_disjoint_before (ev : Stimulus) (sys : System) :
  pairwise_disjoint (sys_step ev sys) = true -> pairwise_disjoint sys = true.
Proof.
  unfold pairwise_disjoint. destruct (sys_step_ids ev sys) as [extra ->].
  apply pairwiseb_app_l.
Qed.

Lemma pairwise_disjoint_settles (i : nat) (s : Settle) (sys : System) :
  pairwise_disjoint (sys_step (Settles i s) sys) = pairwise_disjoint sys.
Proof.
  unfold pairwise_disjoint, sys_step.
  destruct (sys_requests sys !! i) as [r|] eqn:Hi; [|reflexivity].
  destruct (req_status r) as [c k|o]; [|reflexivity].
  destruct (advance _ _) as [[status st] evs]. simpl.
  rewrite list_fmap_insert. simpl.
  rewrite list_insert_id; [reflexivity|].
  rewrite list_lookup_fmap, Hi. reflexivity.
Qed.

(** Among requests over pairwise disjoint identifier sets, a request that
    is in flight has all its identifiers in the list, whatever the other
    requests have done in the meantime. *)
Lemma in_flight_tracked (schedule : list Stimulus) :
  pairwise_disjoint (sys_run schedule) = true ->
  forall j r,
    sys_requests (sys_run schedule) !! j = Some r ->
    in_flight r = true ->
    forall d, In d (req_deviceIds r) ->
              In d (sys_signingOutDeviceIds (sys_run schedule)).
Proof.
  induction schedule as [|ev schedule IH] using rev_ind.
  - intros _ j r Hj. destruct j; discriminate.
  - rewrite sys_run_snoc. intros Hp j r Hj Hfl d Hd.
    specialize (IH (pairwise_disjoint_before _ _ Hp)).
    destruct (sys_step_spec ev _ (sys_run_ok schedule))
      as [Heq|(i & r' & Hi & _ & Hother & Hids & Ht)].
    + rewrite Heq in *. eapply IH; eassumption.
    + destruct (decide (j = i)) as [->|Hne].
      * assert (r = r') by congruence. subst r'.
        apply in_flight_phase in Hfl. rewrite Hfl in Ht.
        unfold phase_at in Ht.
        destruct (sys_requests (sys_run schedule) !! i) as [r0|] eqn:Hr0.
        -- destruct (req_phase r0) eqn:Hp0; simpl in Ht; try contradiction.
           ++ rewrite Ht. apply In_append. right. exact Hd.
           ++ rewrite Ht. apply (IH i r0 Hr0).
              ** apply in_flight_phase. exact Hp0.
              ** rewrite (Hids r0 eq_refl). exact Hd.
        -- simpl in Ht. rewrite Ht. apply In_append. right. exact Hd.
      * rewrite (Hother j Hne) in Hj.
        apply (transition_frame _ _ _ _ _ d Ht).
        -- intros Hd'. revert Hd'.
           apply (pairwise_disjoint_lookup _ j i r r' Hp Hne); try assumption.
           rewrite (Hother j Hne). exact Hj.
        -- eapply IH; eassumption.
Qed.

(** Among requests over pairwise disjoint identifier sets, a step of
    request [i] changes the membership of its own identifiers only, and
    every other request that is still in flight afterwards has all of
    its identifiers in the in-flight list. *)
Theorem completion_keeps_other_requests
  (schedule : list Stimulus) (i : nat) (s : Settle) (ri : Request) :
  pairwise_disjoint (sys_run schedule) = true ->
  sys_requests (sys_run schedule) !! i = Some ri ->
  (forall d, ~ In d (req_deviceIds ri) ->
     (In d (sys_signingOutDeviceIds (sys_step (Settles i s) (sys_run schedule))) <->
      In d (sys_signingOutDeviceIds (sys_run schedule)))) /\
  (forall j rj,
     j <> i ->
     sys_requests (sys_step (Settles i s) (sys_run schedule)) !! j = Some rj ->
     in_flight rj = true ->
     forall d, In d (req_deviceIds rj) ->
       In d (sys_signingOutDeviceIds (sys_step (Settles i s) (sys_run schedule)))).
Proof.
  intros Hp Hi. split.
  - intros d Hd.
    destruct (settles_spec i s _ (sys_run_ok schedule))
      as [Heq|(r & r' & Hr & _ & _ & _ & Ht)].
    + rewrite Heq. reflexivity.
    + assert (r = ri) by congruence. subst r.
      eapply transition_frame; eassumption.
  - intros j rj _ Hj Hfl d Hd. rewrite <- sys_run_snoc in *.
    apply (in_flight_tracked (schedule ++ [Settles i s])) with (j := j) (r := rj);
      try assumption.
    rewrite sys_run_snoc, pairwise_disjoint_settles. exact Hp.
Qed.

(** Request 0 ([DEV1]) fails interactive auth and completes while
    request 1 ([DEV2; DEV3]) is still waiting: [DEV2] and [DEV3] stay. *)
Lemma completion_keeps_other_requests_witness :
  sys_signingOutDeviceIds
    (sys_step (Settles 0 (Fulfilled (VBool false))) (sys_run two_disjoint_requests))
    = [DEV2; DEV3] /\
  (In DEV2 (sys_signingOutDeviceIds
              (sys_step (Settles 0 (Fulfilled (VBool false)))
                        (sys_run two_disjoint_requests))) /\
   In DEV3 (sys_signingOutDeviceIds
              (sys_step (Settles 0 (Fulfilled (VBool false)))
                        (sys_run two_disjoint_requests)))).
Proof.
  split; [reflexivity|].
  destruct (sys_requests (sys_run two_disjoint_requests) !! 0) as [r0|] eqn:H0;
    [|discriminate].
  destruct (sys_requests
              (sys_step (Settles 0 (Fulfilled (VBool false)))
                        (sys_run two_disjoint_requests)) !! 1) as [r1|] eqn:H1;
    [|discriminate].
  destruct (completion_keeps_other_requests two_disjoint_requests 0
              (Fulfilled (VBool false)) r0) as [_ H];
    [reflexivity | exact H0 |].
  injection H1 as H1.
  split; apply (H 1 r1); try (subst r1; reflexivity); try lia;
    subst r1; simpl; find_in.
Defined.

(** C9: the in-flight state is a list, kept with its duplicates.  The
    step that takes a request in flight appends its identifiers to
    whatever is there, so an identifier another pending request already
    put there is now there twice; the step that cleans a request up
    filters out every occurrence of each of its identifiers, so none of
    them is left, not even for a request that still is in flight and
    names it. *)
Theorem overlapping_requests_share_entries
  (schedule : list Stimulus) (ev : Stimulus) (i : nat) (r' : Request) :
  sys_requests (sys_step ev (sys_run schedule)) !! i = Some r' ->
  (phase_at (sys_run schedule) i = Idle -> req_phase r' = InFlight ->
     sys_signingOutDeviceIds (sys_step ev (sys_run schedule)) =
       sys_signingOutDeviceIds (sys_run schedule) ++ req_deviceIds r' /\
     forall d,
       count_occ string_dec (sys_signingOutDeviceIds (sys_step ev (sys_run schedule))) d =
       count_occ string_dec (sys_signingOutDeviceIds (sys_run schedule)) d +
       count_occ string_dec (req_deviceIds r') d) /\
  (phase_at (sys_run schedule) i = InFlight -> req_phase r' = Cleaned ->
     sys_signingOutDeviceIds (sys_step ev (sys_run schedule)) =
       List.filter (fun deviceId => negb (includes (req_deviceIds r') deviceId))
                   (sys_signingOutDeviceIds (sys_run schedule)) /\
     forall j rj d,
       sys_requests (sys_step ev (sys_run schedule)) !! j = Some rj ->
       in_flight rj = true ->
       In d (req_deviceIds rj) ->
       In d (req_deviceIds r') ->
       ~ In d (sys_signingOutDeviceIds (sys_step ev (sys_run schedule)))).
Proof.
  intros Hi.
  assert (Hmove :
    phase_at (sys_run schedule) i <> req_phase r' ->
    transition (req_deviceIds r') (phase_at (sys_run schedule) i) (req_phase r')
               (sys_signingOutDeviceIds (sys_run schedule))
               (sys_signingOutDeviceIds (sys_step ev (sys_run schedule)))).
  { intros Hne.
    destruct (sys_step_spec ev _ (sys_run_ok schedule))
      as [Heq|(i0 & r0 & Hi0 & _ & Hother & _ & Ht)].
    - rewrite Heq in Hi. unfold phase_at in Hne. rewrite Hi in Hne. congruence.
    - destruct (decide (i = i0)) as [->|Hii].
      + assert (r0 = r') by congruence. subst r0. exact Ht.
      + rewrite (Hother i Hii) in Hi. unfold phase_at in Hne.
        rewrite Hi in Hne. congruence. }
  split; intros Hp Hp'; rewrite Hp, Hp' in Hmove;
    specialize (Hmove ltac:(discriminate)); simpl in Hmove.
  - split; [exact Hmove|]. intros d. rewrite Hmove.
    unfold apply_updater. apply count_occ_app.
  - split; [exact Hmove|]. intros j rj d _ _ _ Hd. rewrite Hmove.
    apply filter_out_removes. exact Hd.
Qed.

(** Both requests name [DEV1]; the list holds it twice.  Request 0 then
    fails interactive auth and is cleaned up: both copies go, although
    request 1 is still in flight. *)
Lemma overlapping_requests_share_entries_witness :
  sys_signingOutDeviceIds (sys_run two_overlapping_requests) = [DEV1; DEV1; DEV2] /\
  sys_signingOutDeviceIds
    (sys_step (Settles 0 (Fulfilled (VBool false))) (sys_run two_overlapping_requests))
    = [DEV2] /\
  (exists r1,
     sys_requests
       (sys_step (Settles 0 (Fulfilled (VBool false)))
                 (sys_run two_overlapping_requests)) !! 1 = Some r1 /\
     in_flight r1 = true /\
     In DEV1 (req_deviceIds r1) /\
     ~ In DEV1 (sys_signingOutDeviceIds
                  (sys_step (Settles 0 (Fulfilled (VBool false)))
                            (sys_run two_overlapping_requests)))).
Proof.
  split; [reflexivity|]. split; [reflexivity|].
  destruct (sys_requests
              (sys_step (Settles 0 (Fulfilled (VBool false)))
                        (sys_run two_overlapping_requests)) !! 0) as [r0|] eqn:H0;
    [|discriminate].
  destruct (sys_requests
              (sys_step (Settles 0 (Fulfilled (VBool false)))
                        (sys_run two_overlapping_requests)) !! 1) as [r1|] eqn:H1;
    [|discriminate].
  destruct (overlapping_requests_share_entries two_overlapping_requests
              (Settles 0 (Fulfilled (VBool false))) 0 r0 H0) as [_ H].
  injection H0 as H0. injection H1 as H1.
  destruct H as [_ H]; [reflexivity | subst r0; reflexivity |].
  exists r1. split; [reflexivity|].
  split; [subst r1; reflexivity|].
  split; [subst r1; simpl; find_in|].
  apply (H 1 r1 DEV1).
  - rewrite <- H1. reflexivity.
  - subst r1. reflexivity.
  - subst r1. simpl. find_in.
  - subst r0. simpl. find_in.
Defined.

(** ** Expanded rows *)

Lemma In_filter_ne (l : list DeviceId) (d x : DeviceId) :
  In x (List.filter (fun id => negb (String.eqb id d)) l) <-> In x l /\ x <> d.
Proof.
  rewrite filter_In, negb_true_iff, String.eqb_neq. reflexivity.
Qed.

Lemma filter_ne_absent (l : list DeviceId) (d : DeviceId) :
  ~ In d l -> List.filter (fun id => negb (String.eqb id d)) l = l.
Proof.
  induction l as [|x l IH]; intros Hd; simpl; [reflexivity|].
  destruct (String.eqb_spec x d) as [->|Hne]; simpl.
  - exfalso. apply Hd. left. reflexivity.
  - rewrite IH; [reflexivity|]. intros H. apply Hd. right. exact H.
Qed.

(** X1: toggling a device flips whether it is expanded and leaves every
    other device as it was. *)
Theorem toggle_flips_membership
  (expandedDeviceIds : list DeviceId) (deviceId d : DeviceId) :
  In d (onDeviceExpandToggle expandedDeviceIds deviceId) <->
  (d = deviceId /\ ~ In deviceId expandedDeviceIds) \/
  (d <> deviceId /\ In d expandedDeviceIds).
Proof.
  unfold onDeviceExpandToggle.
  destruct (includes expandedDeviceIds deviceId) eqn:Hinc.
  - apply includes_In in Hinc. rewrite In_filter_ne. tauto.
  - assert (Hout : ~ In deviceId expandedDeviceIds)
      by (rewrite <- includes_In; congruence).
    rewrite in_app_iff. simpl.
    destruct (string_dec d deviceId) as [->|Hne]; [tauto|].
    split; [intros [H|[H|[]]]; [tauto | congruence] | tauto].
Qed.

(** X2: expanding a collapsed device and collapsing it again gives back
    the very same list. *)
Theorem expand_then_collapse
  (expandedDeviceIds : list DeviceId) (deviceId : DeviceId) :
  ~ In deviceId expandedDeviceIds ->
  onDeviceExpandToggle (onDeviceExpandToggle expandedDeviceIds deviceId) deviceId =
  expandedDeviceIds.
Proof.
  intros Hout. unfold onDeviceExpandToggle at 2.
  assert (Hinc : includes expandedDeviceIds deviceId = false).
  { destruct (includes expandedDeviceIds deviceId) eqn:H; [|reflexivity].
    apply includes_In in H. contradiction. }
  rewrite Hinc. unfold onDeviceExpandToggle.
  assert (Hinc' : includes (expandedDeviceIds ++ [deviceId]) deviceId = true)
    by (apply includes_In, in_app_iff; right; left; reflexivity).
  rewrite Hinc', List.filter_app, filter_ne_absent by exact Hout.
  simpl. rewrite String.eqb_refl. simpl. apply app_nil_r.
Qed.

Lemma expand_then_collapse_witness :
  onDeviceExpandToggle (onDeviceExpandToggle [DEV1; DEV2] DEV3) DEV3 = [DEV1; DEV2].
Proof.
  apply (expand_then_collapse [DEV1; DEV2] DEV3).
  intros [H|[H|[]]]; discriminate H.
Defined.

Lemma toggle_step_NoDup
  (expandedDeviceIds : list DeviceId) (deviceId : DeviceId) :
  List.NoDup expandedDeviceIds ->
  List.NoDup (onDeviceExpandToggle expandedDeviceIds deviceId).
Proof.
  intros Hnd. unfold onDeviceExpandToggle.
  destruct (includes expandedDeviceIds deviceId) eqn:Hinc.
  - apply List.NoDup_filter. exact Hnd.
  - assert (Hout : ~ In deviceId expandedDeviceIds)
      by (rewrite <- includes_In; congruence).
    apply NoDup_ListNoDup. apply NoDup_app. repeat split.
    + apply NoDup_ListNoDup. exact Hnd.
    + intros x Hx Hx'. apply list_elem_of_In in Hx, Hx'.
      destruct Hx' as [<-|[]]. contradiction.
    + apply NoDup_singleton.
Qed.

(** X3: starting from the empty list of line 166, no sequence of toggles
    ever puts a device in the list of expanded devices twice. *)
Theorem expanded_never_duplicated (toggled : list DeviceId) :
  List.NoDup (fold_left onDeviceExpandToggle toggled []).
Proof.
  assert (H : forall l, List.NoDup l ->
                        List.NoDup (fold_left onDeviceExpandToggle toggled l)).
  { induction toggled as [|d toggled IH]; intros l Hl; simpl; [exact Hl|].
    apply IH, toggle_step_NoDup, Hl. }
  apply H. constructor.
Qed.

(** ** The other devices *)

Lemma In_keys_omit {V : Type} (k d : string) (o : list (string * V)) :
  In d (Object_keys (omit k o)) <-> In d (Object_keys o) /\ d <> k.
Proof.
  unfold Object_keys, omit. rewrite !in_map_iff. split.
  - intros [[k' v] [Hk Hin]]. simpl in Hk. subst k'.
    apply filter_In in Hin as [Hin Hne]. simpl in Hne.
    apply negb_true_iff, String.eqb_neq in Hne.
    split; [exists (d, v); auto | exact Hne].
  - intros [[[k' v] [Hk Hin]] Hne]. simpl in Hk. subst k'.
    exists (d, v). split; [reflexivity|]. apply filter_In. split; [exact Hin|].
    simpl. apply negb_true_iff, String.eqb_neq. exact Hne.
Qed.

Lemma property_omit_ne {V : Type} (k k' : string) (o : list (string * V)) :
  k' <> k -> property (omit k o) k' = property o k'.
Proof.
  intros Hne. unfold property, omit.
  induction o as [|[x v] o IH]; simpl; [reflexivity|].
  destruct (String.eqb_spec x k) as [->|Hxk]; simpl.
  - destruct (String.eqb_spec k k'); [congruence | exact IH].
  - destruct (String.eqb_spec x k'); [reflexivity | exact IH].
Qed.

Lemma property_omit_eq {V : Type} (k : string) (o : list (string * V)) :
  property (omit k o) k = None.
Proof.
  unfold property, omit.
  induction o as [|[x v] o IH]; simpl; [reflexivity|].
  destruct (String.eqb_spec x k) as [->|Hxk]; simpl; [exact IH|].
  destruct (String.eqb_spec x k); [contradiction | exact IH].
Qed.

(** X4: the other devices are the devices of the account except the
    current one and except the dehydrated device when it is verified. *)
Theorem other_devices_spec {Device : Type} (isVerified : Device -> bool)
  (devices : list (DeviceId * Device)) (currentDeviceId : DeviceId)
  (dehydratedDeviceId : option DeviceId) (d : DeviceId) :
  In d (Object_keys (otherDevices isVerified devices currentDeviceId dehydratedDeviceId)) <->
  In d (Object_keys devices) /\
  d <> currentDeviceId /\
  ~ (truthy_str dehydratedDeviceId = Some d /\
     exists device, property devices d = Some device /\ isVerified device = true).
Proof.
  unfold otherDevices.
  destruct (truthy_str dehydratedDeviceId) as [dd|];
    [|rewrite In_keys_omit; intuition congruence].
  destruct (string_dec dd currentDeviceId) as [->|Hdc].
  - rewrite property_omit_eq, In_keys_omit.
    split; [|tauto]. intros [H1 H2]. repeat split; try assumption.
    intros [Heq _]. congruence.
  - rewrite (property_omit_ne _ _ _ Hdc).
    destruct (property devices dd) as [device|] eqn:Hp.
    + destruct (isVerified device) eqn:Hv.
      * rewrite !In_keys_omit. split.
        -- intros [[H1 H2] H3]. repeat split; try assumption.
           intros [Heq _]. congruence.
        -- intros (H1 & H2 & H3). repeat split; try assumption.
           intros ->. apply H3. split; [reflexivity|]. eauto.
      * rewrite In_keys_omit. split; [|tauto].
        intros [H1 H2]. repeat split; try assumption.
        intros [Heq (device' & Hp' & Hv')].
        injection Heq as ->. congruence.
    + rewrite In_keys_omit. split; [|tauto].
      intros [H1 H2]. repeat split; try assumption.
      intros [Heq (device' & Hp' & _)]. injection Heq as ->. congruence.
Qed.

Lemma current_not_other {Device : Type} (isVerified : Device -> bool)
  (devices : list (DeviceId * Device)) (currentDeviceId : DeviceId)
  (dehydratedDeviceId : option DeviceId) :
  ~ In currentDeviceId
       (Object_keys (otherDevices isVerified devices currentDeviceId
                                  dehydratedDeviceId)).
Proof.
  unfold otherDevices.
  destruct (truthy_str dehydratedDeviceId) as [dd|];
    [destruct (property _ dd) as [device|]; [destruct (isVerified device)|]|];
    rewrite ?In_keys_omit; tauto.
Qed.

Lemma sign_out_all_action {Device : Type} (isVerified : Device -> bool)
  (url : option string) (devices : list (DeviceId * Device))
  (currentDeviceId : DeviceId) (dehydratedDeviceId : option DeviceId)
  (action : Task unit) :
  signOutAllOtherSessions isVerified url devices currentDeviceId dehydratedDeviceId
    = Some action ->
  action = onSignOutOtherDevices url
             (Object_keys (otherDevices isVerified devices currentDeviceId
                                        dehydratedDeviceId)) /\
  delegated url = false /\
  Nat.ltb 0 (length (Object_keys (otherDevices isVerified devices currentDeviceId
                                               dehydratedDeviceId))) = true.
Proof.
  unfold signOutAllOtherSessions, shouldShowOtherSessions, disableMultipleSignout,
    otherSessionsCount.
  destruct (Nat.ltb 0 _) eqn:Hlen; simpl; [|discriminate].
  destruct (delegated url) eqn:Hd; simpl; [discriminate|].
  intros [= <-]. auto.
Qed.

(** X5: when "sign out of all other sessions" is offered, there is
    another session and the account is not under delegated auth; the
    call it makes names every other device and not the current one, and
    always starts with the confirmation dialog, which reports the number
    of other sessions. *)
Theorem sign_out_all_asks_first {Device : Type} (isVerified : Device -> bool)
  (url : option string) (devices : list (DeviceId * Device))
  (currentDeviceId : DeviceId) (dehydratedDeviceId : option DeviceId)
  (action : Task unit) :
  signOutAllOtherSessions isVerified url devices currentDeviceId dehydratedDeviceId
    = Some action ->
  delegated url = false /\
  0 < otherSessionsCount isVerified devices currentDeviceId dehydratedDeviceId /\
  action = onSignOutOtherDevices url
             (Object_keys (otherDevices isVerified devices currentDeviceId
                                        dehydratedDeviceId)) /\
  ~ In currentDeviceId
       (Object_keys (otherDevices isVerified devices currentDeviceId
                                  dehydratedDeviceId)) /\
  forall env st,
    firstn 2 (events_of (exec env action st)) =
    [EvDo (Modal_createDialog
             (QuestionDialog
                (otherSessionsCount isVerified devices currentDeviceId
                                    dehydratedDeviceId)));
     EvAwait (finished
                (QuestionDialog
                   (otherSessionsCount isVerified devices currentDeviceId
                                       dehydratedDeviceId)))].
Proof.
  intros Hact.
  destruct (sign_out_all_action isVerified url devices currentDeviceId
              dehydratedDeviceId action Hact) as (-> & Hd & Hlen).
  pose proof (current_not_other isVerified devices currentDeviceId
                dehydratedDeviceId) as Hcur.
  unfold otherSessionsCount.
  set (ids := Object_keys (otherDevices isVerified devices currentDeviceId
                                        dehydratedDeviceId)) in *.
  repeat split; try assumption.
  - apply Nat.ltb_lt. exact Hlen.
  - intros env st. unfold events_of, onSignOutOtherDevices. rewrite Hd.
    destruct ids as [|d l]; [discriminate|]. simpl.
    match goal with
    | |- context [match env ?c with _ => _ end] => destruct (env c) as [s|]
    end; [|reflexivity].
    match goal with
    | |- context [exec env ?t ?st0] => destruct (exec env t st0) as [[o st'] evs]
    end. reflexivity.
Qed.

Lemma sign_out_all_asks_first_witness :
  firstn 2 (events_of
              (exec declined (onSignOutOtherDevices None [DEV2]) (mkState [] false))) =
  [EvDo (Modal_createDialog (QuestionDialog 1));
   EvAwait (finished (QuestionDialog 1))].
Proof.
  destruct (sign_out_all_asks_first (fun v : bool => v) None sample_devices DEV1
              (Some DEV3) (onSignOutOtherDevices None [DEV2]))
    as (_ & _ & _ & _ & H); [reflexivity|].
  exact (H declined (mkState [] false)).
Defined.

(** ** What a call does to the list, at every moment *)

Lemma follows_updates_own (ids : list DeviceId) (p : Phase) (t : Task unit) :
  follows ids p t ->
  forall env st u,
    In (EvDo (setSigningOutDeviceIds u)) (events_of (exec env t st)) ->
    u = Append ids \/ u = FilterOut ids.
Proof.
  unfold events_of.
  induction 1 as [p a|p e|p e k He Hk IH|k Hk IH|k Hk IH|p b k Hk IH
                 |p k Hk IH|p c k Hk IH]; intros env st u; simpl.
  - tauto.
  - tauto.
  - specialize (IH env (do_effect e st) u).
    destruct (exec env k (do_effect e st)) as [[o st'] evs]. simpl in *.
    intros [Heq|Hin]; [|auto]. injection Heq as ->. discriminate He.
  - specialize (IH env (do_effect (setSigningOutDeviceIds (Append ids)) st) u).
    destruct (exec env k _) as [[o st'] evs]. simpl in *.
    intros [Heq|Hin]; [|auto]. injection Heq as <-. auto.
  - specialize (IH env (do_effect (setSigningOutDeviceIds (FilterOut ids)) st) u).
    destruct (exec env k _) as [[o st'] evs]. simpl in *.
    intros [Heq|Hin]; [|auto]. injection Heq as <-. auto.
  - apply IH.
  - apply IH.
  - destruct (env c) as [s|]; simpl.
    + specialize (IH s env st u).
      destruct (exec env (k s) st) as [[o st'] evs]. simpl in *.
      intros [Heq|[Heq|Hin]]; try discriminate. auto.
    + intros [Heq|[]]. discriminate.
Qed.

Lemma replay_frame (ids : list DeviceId) (d : DeviceId) (evs : list Event) :
  (forall u, In (EvDo (setSigningOutDeviceIds u)) evs ->
             u = Append ids \/ u = FilterOut ids) ->
  ~ In d ids ->
  forall store, In d (replay evs store) <-> In d store.
Proof.
  intros Hown Hd. induction evs as [|ev evs IH]; intros store; [reflexivity|].
  unfold replay in *. simpl.
  rewrite IH by (intros u Hu; apply Hown; right; exact Hu).
  destruct ev as [[| | |u]| |]; try reflexivity.
  destruct (Hown u (or_introl eq_refl)) as [->| ->].
  - rewrite In_append. tauto.
  - rewrite In_filter_out. tauto.
Qed.

Lemma In_firstn {A : Type} (n : nat) (l : list A) (x : A) :
  In x (firstn n l) -> In x l.
Proof.
  revert l. induction n as [|n IH]; intros [|y l]; simpl; try tauto.
  intros [H|H]; [left; exact H | right; apply IH; exact H].
Qed.

(** A call on its own: the updates it has made so far, applied to the
    list it started from, never change whether a device it was not asked
    about is in the list. *)
Theorem call_touches_own_ids_only
  (env : Behaviour) (url : option string) (ids store : list DeviceId)
  (d : DeviceId) (n : nat) :
  ~ In d ids ->
  (In d (replay (firstn n (events_of (run env url ids store))) store) <->
   In d store).
Proof.
  intros Hd. apply (replay_frame ids); [|exact Hd].
  intros u Hu. apply In_firstn in Hu.
  exact (follows_updates_own ids Idle _ (onSignOutOtherDevices_follows url ids)
           env _ u Hu).
Qed.

Lemma call_touches_own_ids_only_witness :
  In DEV3 (replay (firstn 4 (events_of (run all_good None [DEV1; DEV2] [DEV3]))) [DEV3]).
Proof.
  apply (call_touches_own_ids_only all_good None [DEV1; DEV2] [DEV3] DEV3 4).
  - intros [H|[H|[]]]; discriminate H.
  - left. reflexivity.
Defined.

(** X7: while "sign out of all other sessions" runs, the current device
    is never shown as signing out on its account. *)
Theorem sign_out_all_spares_current {Device : Type} (isVerified : Device -> bool)
  (url : option string) (devices : list (DeviceId * Device))
  (currentDeviceId : DeviceId) (dehydratedDeviceId : option DeviceId)
  (action : Task unit) (env : Behaviour) (store : list DeviceId) (n : nat) :
  signOutAllOtherSessions isVerified url devices currentDeviceId dehydratedDeviceId
    = Some action ->
  isSigningOut store currentDeviceId = false ->
  isSigningOut
    (replay (firstn n (events_of (exec env action (mkState store false)))) store)
    currentDeviceId = false.
Proof.
  intros Hact Hstore.
  destruct (sign_out_all_action isVerified url devices currentDeviceId
              dehydratedDeviceId action Hact) as (-> & _ & _).
  pose proof (current_not_other isVerified devices currentDeviceId
                dehydratedDeviceId) as Hcur.
  unfold isSigningOut in *.
  match goal with
  | |- includes ?l _ = false => destruct (includes l currentDeviceId) eqn:Hinc
  end; [|reflexivity].
  apply includes_In in Hinc.
  exfalso.
  assert (Hin : In currentDeviceId store).
  { eapply replay_frame; [| exact Hcur | exact Hinc].
    intros u Hu. apply In_firstn in Hu.
    exact (follows_updates_own _ Idle _ (onSignOutOtherDevices_follows url _)
             env _ u Hu). }
  apply includes_In in Hin. congruence.
Qed.

Lemma sign_out_all_spares_current_witness :
  isSigningOut
    (replay (firstn 4 (events_of
                         (exec all_good (onSignOutOtherDevices None [DEV2])
                               (mkState [] false)))) [])
    DEV1 = false.
Proof.
  apply (sign_out_all_spares_current (fun v : bool => v) None sample_devices DEV1
           (Some DEV3) (onSignOutOtherDevices None [DEV2]) all_good [] 4);
    reflexivity.
Defined.

(** ** Every way a call can go *)

Ltac all_paths :=
  unfold run, onSignOutOtherDevices, signOutDevices, sign_out_succeeds, delegated;
  unfold_obs;
  match goal with
  | |- context [truthy_str ?url] =>
      destruct (truthy_str url) as [?u|]
  end;
  match goal with
  | ids : list DeviceId |- _ =>
      lazymatch goal with
      | |- context [length ids] => destruct ids as [|?d [|?d' ?l]]
      end
  end;
  simpl in *; walk.

Lemma cleanup_after_append (ids store : list DeviceId) :
  apply_updater (FilterOut ids) (apply_updater (Append ids) store) =
  apply_updater (FilterOut ids) store.
Proof.
  unfold apply_updater. rewrite List.filter_app.
  assert (H : List.filter (fun d => negb (includes ids d)) ids = []).
  { assert (Hall : forall l, (forall d, In d l -> In d ids) ->
                             List.filter (fun d => negb (includes ids d)) l = []).
    { induction l as [|x l IH]; intros Hl; simpl; [reflexivity|].
      assert (Hx : includes ids x = true) by (apply includes_In, Hl; left; reflexivity).
      rewrite Hx. simpl. apply IH. intros d Hd. apply Hl. right. exact Hd. }
    apply Hall. auto. }
  rewrite H. apply app_nil_r.
Qed.

Lemma filter_out_disjoint (ids store : list DeviceId) :
  (forall d, In d ids -> ~ In d store) ->
  apply_updater (FilterOut ids) store = store.
Proof.
  unfold apply_updater. intros Hdis.
  induction store as [|x store IH]; simpl; [reflexivity|].
  assert (Hx : includes ids x = false).
  { destruct (includes ids x) eqn:H; [|reflexivity].
    apply includes_In in H. exfalso. apply (Hdis x H). left. reflexivity. }
  rewrite Hx. simpl. f_equal. apply IH.
  intros d Hd Hin. apply (Hdis d Hd). right. exact Hin.
Qed.

(** X8: whatever the collaborators do, a call appends at most once and
    cleans up at most once and only after having appended; and once it
    has cleaned up it has resolved, the cleanup being the last thing it
    did. *)
Theorem updates_are_disciplined
  (env : Behaviour) (url : option string) (ids store : list DeviceId) :
  count is_append (events_of (run env url ids store)) <= 1 /\
  count is_removal (events_of (run env url ids store)) <=
    count is_append (events_of (run env url ids store)) /\
  (existsb is_removal (events_of (run env url ids store)) = true ->
   outcome_of (run env url ids store) = Completed Resolved /\
   last (events_of (run env url ids store)) =
     Some (EvDo (setSigningOutDeviceIds (FilterOut ids)))).
Proof.
  all_paths.
  all: unfold count; simpl; repeat split; try lia; try discriminate.
Qed.

(** X9: the two deletion flows exclude each other: under delegated auth
    a call never shows the confirmation dialog nor touches the
    interactive-auth deletion, and without it a call never shows the
    delegated-auth logout dialog. *)
Theorem flows_are_exclusive
  (env : Behaviour) (url : option string) (ids store : list DeviceId) :
  (if delegated url
   then existsb is_interactive (events_of (run env url ids store))
   else existsb is_delegated (events_of (run env url ids store))) = false.
Proof.
  all_paths. all: reflexivity.
Qed.

Ltac in_cases H :=
  simpl in H; repeat (destruct H as [H|H]; try discriminate H); try contradiction.

(** X10: the collaborators are given the request's own data: the
    confirmation dialog the number of requested devices, the deletion
    API the requested identifiers, and the delegated-auth logout dialog
    the one requested device and the account management URL. *)
Theorem collaborators_get_request_data
  (env : Behaviour) (url : option string) (ids store : list DeviceId) :
  (forall n,
     In (EvDo (Modal_createDialog (QuestionDialog n)))
        (events_of (run env url ids store)) ->
     n = length ids) /\
  (forall ids',
     In (EvAwait (deleteDevicesWithInteractiveAuth ids'))
        (events_of (run env url ids store)) ->
     ids' = ids) /\
  (forall deviceId u,
     In (EvDo (Modal_createDialog (OidcLogoutDialog deviceId u)))
        (events_of (run env url ids store)) ->
     truthy_str url = Some u /\ deviceId = head ids /\ length ids = 1).
Proof.
  all_paths.
  all: repeat split; intros; in_cases H.
  all: try (injection H as <-; reflexivity).
  all: try (injection H as <- <-; reflexivity).
Qed.

(** X11: run on its own, with no other call updating the list in
    between, a call that resolves leaves the in-flight list either
    untouched (it never appended) or equal to the list it started from
    without the requested identifiers; so if none of them was in the
    list when the call started, the list is back to exactly what it
    was. *)
Theorem resolved_call_restores_list
  (env : Behaviour) (url : option string) (ids store : list DeviceId) :
  outcome_of (run env url ids store) = Completed Resolved ->
  ((existsb is_append (events_of (run env url ids store)) = false /\
    store_of (run env url ids store) = store) \/
   (existsb is_append (events_of (run env url ids store)) = true /\
    store_of (run env url ids store) = apply_updater (FilterOut ids) store)) /\
  ((forall d, In d ids -> ~ In d store) ->
   store_of (run env url ids store) = store).
Proof.
  intros Ho.
  assert (H :
    (existsb is_append (events_of (run env url ids store)) = false /\
     store_of (run env url ids store) = store) \/
    (existsb is_append (events_of (run env url ids store)) = true /\
     store_of (run env url ids store) = apply_updater (FilterOut ids) store)).
  { revert Ho. all_paths.
    all: intros Ho; try discriminate Ho.
    all: first [ left; split; reflexivity
               | right; split; [reflexivity | apply cleanup_after_append] ]. }
  split; [exact H|].
  intros Hdis. destruct H as [[_ H]|[_ H]]; [exact H|].
  rewrite H. apply filter_out_disjoint. exact Hdis.
Qed.

Lemma resolved_call_restores_list_witness :
  store_of (run auth_cancelled None [DEV1; DEV2] [DEV3; DEV1]) = [DEV3].
Proof.
  destruct (resolved_call_restores_list auth_cancelled None [DEV1; DEV2] [DEV3; DEV1])
    as [[[H _]|[_ H]] _]; [reflexivity | discriminate H | exact H].
Defined.

(** X12: a call leaves its identifiers in the in-flight list only if one
    of the promises it awaits never settles or the resolution callback
    rejects. *)
Theorem left_in_flight_only_if
  (env : Behaviour) (url : option string) (ids store : list DeviceId) :
  existsb is_append (events_of (run env url ids store)) = true ->
  existsb is_removal (events_of (run env url ids store)) = false ->
  (exists c, outcome_of (run env url ids store) = PendingOn c /\ env c = None) \/
  (exists e,
     outcome_of (run env url ids store) = Completed (RejectedWith e) /\
     env onSignoutResolvedCallback = Some (Rejected e)).
Proof.
  all_paths.
  all: intros Ha Hr; try discriminate Ha; try discriminate Hr.
  all: first [ left; eexists; split; [reflexivity | eassumption]
             | right; eexists; split; reflexivity ].
Qed.

Lemma left_in_flight_only_if_witness :
  exists e,
    outcome_of (run refresh_fails None [DEV1] []) = Completed (RejectedWith e) /\
    refresh_fails onSignoutResolvedCallback = Some (Rejected e).
Proof.
  destruct (left_in_flight_only_if refresh_fails None [DEV1] [])
    as [(c & H & _)|H]; [reflexivity | reflexivity | discriminate H | exact H].
Defined.

(** X13: the resolution callback is invoked exactly when the request got
    through the guards and its deletion flow reported success, and then
    only once. *)
Theorem callback_iff_success
  (env : Behaviour) (url : option string) (ids store : list DeviceId) :
  existsb is_callback (events_of (run env url ids store)) =
    sign_out_succeeds env url ids /\
  count is_callback (events_of (run env url ids store)) <= 1.
Proof.
  all_paths.
  all: unfold count; simpl; split; first [reflexivity | lia].
Qed.

(** ** What the list holds, over all interleavings *)

(** Every entry of the in-flight list was put there by a request that
    has not cleaned up yet. *)
Lemma entries_in_flight (schedule : list Stimulus) (d : DeviceId) :
  In d (sys_signingOutDeviceIds (sys_run schedule)) ->
  exists k r,
    sys_requests (sys_run schedule) !! k = Some r /\
    in_flight r = true /\
    In d (req_deviceIds r).
Proof.
  induction schedule as [|ev schedule IH] using rev_ind; [intros []|].
  rewrite sys_run_snoc.
  destruct (sys_step_spec ev _ (sys_run_ok schedule))
    as [Heq|(i & r' & Hi & _ & Hother & Hids & Ht)];
    [rewrite Heq; exact IH|].
  intros Hd.
  assert (Hkeep : In d (sys_signingOutDeviceIds (sys_run schedule)) ->
                  (phase_at (sys_run schedule) i = InFlight ->
                   req_phase r' = InFlight \/ ~ In d (req_deviceIds r')) ->
                  exists k r,
                    sys_requests (sys_step ev (sys_run schedule)) !! k = Some r /\
                    in_flight r = true /\ In d (req_deviceIds r)).
  { intros Hold Hsame. destruct (IH Hold) as (k & r & Hk & Hfl & Hin).
    destruct (decide (k = i)) as [->|Hne].
    - assert (Hp : phase_at (sys_run schedule) i = InFlight)
        by (unfold phase_at; rewrite Hk; apply in_flight_phase; exact Hfl).
      rewrite <- (Hids r Hk) in Hsame.
      destruct (Hsame Hp) as [Hp'|Hout]; [|contradiction].
      exists i, r'. repeat split; [exact Hi | apply in_flight_phase; exact Hp'|].
      rewrite <- (Hids r Hk). exact Hin.
    - exists k, r. rewrite (Hother k Hne). auto. }
  destruct (phase_at (sys_run schedule) i) eqn:Hp, (req_phase r') eqn:Hp';
    simpl in Ht; try contradiction; rewrite Ht in Hd.
  - apply Hkeep; [exact Hd | discriminate].
  - apply In_append in Hd as [Hd|Hd].
    + apply Hkeep; [exact Hd | discriminate].
    + exists i, r'. repeat split; [exact Hi | apply in_flight_phase; exact Hp' | exact Hd].
  - apply In_filter_out in Hd as [Hd Hout]. apply In_append in Hd as [Hd|Hd];
      [|contradiction].
    apply Hkeep; [exact Hd | discriminate].
  - apply Hkeep; [exact Hd | auto].
  - apply In_filter_out in Hd as [Hd Hout]. apply Hkeep; [exact Hd | auto].
  - apply Hkeep; [exact Hd | discriminate].
Qed.

(** X14: over all interleavings, a device is shown as signing out only
    while some request that names it has appended it and not yet cleaned
    up; and the heading is disabled only while some request is in
    flight. *)
Theorem shown_signing_out_is_in_flight (schedule : list Stimulus) :
  (forall d,
     isSigningOut (sys_signingOutDeviceIds (sys_run schedule)) d = true ->
     exists k r,
       sys_requests (sys_run schedule) !! k = Some r /\
       in_flight r = true /\ In d (req_deviceIds r)) /\
  (headingDisabled (sys_signingOutDeviceIds (sys_run schedule)) = true ->
   exists k r,
     sys_requests (sys_run schedule) !! k = Some r /\ in_flight r = true).
Proof.
  split.
  - intros d Hd. apply entries_in_flight. apply includes_In. exact Hd.
  - unfold headingDisabled.
    destruct (sys_signingOutDeviceIds (sys_run schedule)) as [|d l] eqn:Hs;
      [discriminate|].
    intros _. destruct (entries_in_flight schedule d) as (k & r & Hk & Hfl & _).
    + rewrite Hs. left. reflexivity.
    + exists k, r. auto.
Qed.

Lemma advance_drains (ids : list DeviceId) (p : Phase) (t : Task unit) :
  drains ids p t ->
  forall st,
    status_drains ids (phase_after p (snd (advance t st))) (fst (fst (advance t st))).
Proof.
  induction 1 as [p a Hp|p e|p e k He Hk IH|k Hk IH|k Hk IH|p b k Hk IH
                 |p k Hk IH|p c k Hk IH]; intros st; simpl.
  - exact Hp.
  - exact I.
  - specialize (IH (do_effect e st)).
    destruct (advance k (do_effect e st)) as [[s st'] evs]. simpl in *.
    assert (Hp : phase_after p (EvDo e :: evs) = phase_after p evs)
      by (destruct e; try discriminate; reflexivity).
    rewrite Hp. exact IH.
  - specialize (IH (do_effect (setSigningOutDeviceIds (Append ids)) st)).
    destruct (advance k _) as [[s st'] evs]. simpl in *.
    unfold phase_after in *. simpl.
    destruct (existsb is_removal evs), (existsb is_append evs); exact IH.
  - specialize (IH (do_effect (setSigningOutDeviceIds (FilterOut ids)) st)).
    destruct (advance k _) as [[s st'] evs]. simpl in *.
    unfold phase_after in *. simpl.
    destruct (existsb is_removal evs), (existsb is_append evs); exact IH.
  - apply (IH (mkState (signingOutDeviceIds st) b)).
  - apply IH.
  - destruct p; exact Hk.
Qed.

Ltac drain :=
  repeat first
    [ apply drains_ret; discriminate
    | apply drains_throw
    | apply drains_append
    | apply drains_cleanup
    | apply drains_do; [reflexivity|]
    | apply drains_assign
    | apply drains_read; intros []; simpl
    | apply drains_await; intros [[|[|]]|?]; simpl ].

Lemma onSignOutOtherDevices_drains (url : option string) (ids : list DeviceId) :
  drains ids Idle (onSignOutOtherDevices url ids).
Proof.
  unfold onSignOutOtherDevices, signOutDevices, delegated.
  destruct (Nat.eqb (length ids) 0); [drain|].
  destruct (truthy_str url) as [u|]; simpl.
  - destruct (negb (Nat.eqb (length ids) 1)); simpl; drain.
  - drain.
Qed.

Lemma sys_step_drains (ev : Stimulus) (sys : System) :
  Forall req_drains (sys_requests sys) ->
  Forall req_drains (sys_requests (sys_step ev sys)).
Proof.
  intros Hall. destruct ev as [url ids|i s]; unfold sys_step.
  - pose proof (advance_drains ids Idle _ (onSignOutOtherDevices_drains url ids)
                  (mkState (sys_signingOutDeviceIds sys) false)) as H.
    destruct (advance _ _) as [[status st] evs]. simpl in *.
    apply Forall_app. split; [exact Hall|]. constructor; [|constructor].
    unfold req_drains, req_phase. simpl.
    change (phase_of evs) with (phase_of ([] ++ evs)). rewrite phase_of_app.
    exact H.
  - destruct (sys_requests sys !! i) as [r|] eqn:Hi; [|exact Hall].
    destruct (req_status r) as [c k|o] eqn:Hst; [|exact Hall].
    assert (Hr : req_drains r) by (eapply Forall_lookup_1; eassumption).
    unfold req_drains in Hr. rewrite Hst in Hr. simpl in Hr.
    pose proof (advance_drains _ _ _ (Hr s)
                  (mkState (sys_signingOutDeviceIds sys) (req_success r))) as H.
    destruct (advance _ _) as [[status st] evs]. simpl in *.
    apply Forall_insert; [exact Hall|].
    unfold req_drains, req_phase in *. simpl.
    rewrite phase_of_app, phase_after_settled. exact H.
Qed.

Lemma sys_run_drains (schedule : list Stimulus) :
  Forall req_drains (sys_requests (sys_run schedule)).
Proof.
  induction schedule as [|ev schedule IH] using rev_ind.
  - constructor.
  - rewrite sys_run_snoc. apply sys_step_drains. exact IH.
Qed.

(** X15: over all interleavings and whatever the requests overlap on,
    once every call made so far has resolved the in-flight list is empty:
    nothing is shown as signing out and the heading is enabled again. *)
Theorem all_resolved_list_empty (schedule : list Stimulus) :
  forallb resolved (sys_requests (sys_run schedule)) = true ->
  sys_signingOutDeviceIds (sys_run schedule) = [] /\
  headingDisabled (sys_signingOutDeviceIds (sys_run schedule)) = false.
Proof.
  intros Hall.
  assert (Hempty : sys_signingOutDeviceIds (sys_run schedule) = []).
  { destruct (sys_signingOutDeviceIds (sys_run schedule)) as [|d l] eqn:Hs;
      [reflexivity|]. exfalso.
    destruct (entries_in_flight schedule d) as (k & r & Hk & Hfl & _);
      [rewrite Hs; left; reflexivity|].
    assert (Hres : resolved r = true).
    { rewrite forallb_forall in Hall. apply Hall.
      apply list_elem_of_In. eapply list_elem_of_lookup_2. exact Hk. }
    pose proof (Forall_lookup_1 _ _ _ _ (sys_run_drains schedule) Hk) as Hdr.
    unfold req_drains, resolved in *.
    destruct (req_status r) as [c q|[|e]]; try discriminate.
    simpl in Hdr. apply in_flight_phase in Hfl. contradiction. }
  rewrite Hempty. split; reflexivity.
Qed.

(** [DEV1] is signed out with interactive auth and [DEV2], under
    delegated auth, is cancelled in the logout dialog: both calls have
    resolved. *)
Lemma all_resolved_list_empty_witness :
  sys_signingOutDeviceIds (sys_run two_completed_requests) = [] /\
  headingDisabled (sys_signingOutDeviceIds (sys_run two_completed_requests)) = false.
Proof.
  apply (all_resolved_list_empty two_completed_requests). reflexivity.
Defined.

(** ** The selection *)

Lemma callback_invoked (env : Behaviour) (url : option string)
  (ids store : list DeviceId) :
  existsb is_callback (events_of (run env url ids store)) =
  sign_out_succeeds env url ids.
Proof. all_paths. all: reflexivity. Qed.

Lemma sign_out_succeeds_with_refresh (env : Behaviour) (refreshDevices : option Settle)
  (url : option string) (ids : list DeviceId) :
  sign_out_succeeds (with_refresh env refreshDevices) url ids =
  sign_out_succeeds env url ids.
Proof. reflexivity. Qed.

(** X16: with the tab's own resolution callback, a call clears the
    selection exactly when the sign-out succeeded and the refresh of the
    device list resolved; a declined, rejected by the guards or failed
    sign-out, and a refresh that fails or hangs, leave the selection as
    it was. *)
Theorem selection_cleared_on_success
  (env : Behaviour) (refreshDevices : option Settle) (url : option string)
  (ids store selectedDeviceIds : list DeviceId) :
  selection_after
    (events_of (run (with_refresh env refreshDevices) url ids store))
    refreshDevices selectedDeviceIds =
  if sign_out_succeeds env url ids && fulfils refreshDevices
  then []
  else selectedDeviceIds.
Proof.
  unfold selection_after.
  rewrite callback_invoked, sign_out_succeeds_with_refresh.
  destruct (sign_out_succeeds env url ids); [|reflexivity].
  destruct refreshDevices as [[v|e]|]; reflexivity.
Qed.

(** ** Frames that hold whatever the other requests do *)

Lemma count_occ_filter_out (ids store : list DeviceId) (d : DeviceId) :
  ~ In d ids ->
  count_occ string_dec (apply_updater (FilterOut ids) store) d =
  count_occ string_dec store d.
Proof.
  intros Hd. unfold apply_updater.
  induction store as [|x store IH]; simpl; [reflexivity|].
  destruct (includes ids x) eqn:Hx; simpl.
  - apply includes_In in Hx.
    destruct (string_dec x d) as [->|Hne]; [contradiction | exact IH].
  - destruct (string_dec x d); [f_equal|]; exact IH.
Qed.

Lemma count_occ_append (ids store : list DeviceId) (d : DeviceId) :
  ~ In d ids ->
  count_occ string_dec (apply_updater (Append ids) store) d =
  count_occ string_dec store d.
Proof.
  intros Hd. unfold apply_updater, DeviceId in *. rewrite count_occ_app.
  apply (count_occ_not_In string_dec) in Hd. rewrite Hd. lia.
Qed.

(** A move of a request leaves the number of occurrences of every
    device it was not asked about as it is. *)
Lemma transition_count (ids : list DeviceId) (p p' : Phase)
  (store store' : list DeviceId) (d : DeviceId) :
  transition ids p p' store store' -> ~ In d ids ->
  count_occ string_dec store' d = count_occ string_dec store d.
Proof.
  intros Ht Hd. destruct p, p'; simpl in Ht; try contradiction; subst;
    rewrite ?count_occ_filter_out, ?count_occ_append by exact Hd; reflexivity.
Qed.

Lemma disjointb_right (a b : list DeviceId) (d : DeviceId) :
  disjointb a b = true -> In d b -> ~ In d a.
Proof.
  rewrite disjointb_spec. intros H Hb Ha. exact (H d Ha Hb).
Qed.

(** C6: when request [i] completes (or makes any other step, whether its
    sign-out succeeded or failed) while request [j], over a disjoint set
    of identifiers, is pending, nothing but the identifiers of [i] is
    removed: every device outside the request of [i], and so every
    identifier of [j], occurs in the in-flight list as often as before,
    each identifier of [j] that was in the list is still in it, and [j]
    itself is as it was.  Nothing is assumed about the other requests,
    past or present. *)
Theorem completion_removes_only_own_ids
  (schedule : list Stimulus) (i j : nat) (s : Settle) (ri rj : Request) :
  sys_requests (sys_run schedule) !! i = Some ri ->
  sys_requests (sys_run schedule) !! j = Some rj ->
  i <> j ->
  disjointb (req_deviceIds ri) (req_deviceIds rj) = true ->
  (forall d, ~ In d (req_deviceIds ri) ->
     count_occ string_dec
       (sys_signingOutDeviceIds (sys_step (Settles i s) (sys_run schedule))) d =
     count_occ string_dec (sys_signingOutDeviceIds (sys_run schedule)) d) /\
  (forall d, In d (req_deviceIds rj) ->
     count_occ string_dec
       (sys_signingOutDeviceIds (sys_step (Settles i s) (sys_run schedule))) d =
     count_occ string_dec (sys_signingOutDeviceIds (sys_run schedule)) d) /\
  (forall d, In d (req_deviceIds rj) ->
     In d (sys_signingOutDeviceIds (sys_run schedule)) ->
     In d (sys_signingOutDeviceIds (sys_step (Settles i s) (sys_run schedule)))) /\
  sys_requests (sys_step (Settles i s) (sys_run schedule)) !! j = Some rj.
Proof.
  intros Hi Hj Hij Hdis.
  assert (Hframe : forall d, ~ In d (req_deviceIds ri) ->
     count_occ string_dec
       (sys_signingOutDeviceIds (sys_step (Settles i s) (sys_run schedule))) d =
     count_occ string_dec (sys_signingOutDeviceIds (sys_run schedule)) d).
  { intros d Hd.
    destruct (settles_spec i s _ (sys_run_ok schedule))
      as [Heq|(r & r' & Hr & _ & _ & _ & Ht)]; [rewrite Heq; reflexivity|].
    assert (r = ri) by congruence. subst r.
    eapply transition_count; eassumption. }
  repeat split.
  - exact Hframe.
  - intros d Hd. apply Hframe. eapply disjointb_right; eassumption.
  - intros d Hd Hin. apply (count_occ_In string_dec).
    rewrite Hframe by (eapply disjointb_right; eassumption).
    apply (count_occ_In string_dec). exact Hin.
  - destruct (settles_spec i s _ (sys_run_ok schedule))
      as [Heq|(r & r' & _ & Hreqs & _)]; [rewrite Heq; exact Hj|].
    rewrite Hreqs, list_lookup_insert_ne by exact Hij. exact Hj.
Qed.

(** The retried request for [DEV1] fails while the request for [DEV2]
    is pending: [DEV2] stays, although an earlier request named [DEV1]
    too. *)
Lemma completion_removes_only_own_ids_witness :
  pairwise_disjoint (sys_run retry_and_other) = false /\
  sys_signingOutDeviceIds (sys_run retry_and_other) = [DEV1; DEV2] /\
  sys_signingOutDeviceIds
    (sys_step (Settles 1 (Fulfilled (VBool false))) (sys_run retry_and_other))
    = [DEV2] /\
  In DEV2 (sys_signingOutDeviceIds
             (sys_step (Settles 1 (Fulfilled (VBool false)))
                       (sys_run retry_and_other))).
Proof.
  split; [reflexivity|]. split; [reflexivity|]. split; [reflexivity|].
  destruct (sys_requests (sys_run retry_and_other) !! 1) as [r1|] eqn:H1;
    [|discriminate].
  destruct (sys_requests (sys_run retry_and_other) !! 2) as [r2|] eqn:H2;
    [|discriminate].
  destruct (completion_removes_only_own_ids retry_and_other 1 2
              (Fulfilled (VBool false)) r1 r2 H1 H2)
    as (_ & _ & H & _).
  - lia.
  - injection H1 as <-. injection H2 as <-. reflexivity.
  - apply (H DEV2).
    + injection H2 as <-. simpl. find_in.
    + simpl. find_in.
Defined.

(** X6: over all interleavings, a step of a request (its start, a
    resumption, its completion) never changes how many times a device
    that request was not asked about occurs in the in-flight list. *)
Theorem step_touches_own_ids_only
  (schedule : list Stimulus) (ev : Stimulus) (d : DeviceId) :
  ~ In d (actor_ids (sys_run schedule) ev) ->
  count_occ string_dec
    (sys_signingOutDeviceIds (sys_step ev (sys_run schedule))) d =
  count_occ string_dec (sys_signingOutDeviceIds (sys_run schedule)) d.
Proof.
  intros Hd. destruct ev as [url ids|k s]; simpl in Hd.
  - destruct (invoke_spec url ids (sys_run schedule)) as (r' & _ & _ & _ & Ht).
    eapply transition_count; eassumption.
  - destruct (settles_spec k s _ (sys_run_ok schedule))
      as [Heq|(r & r' & Hr & _ & _ & _ & Ht)]; [rewrite Heq; reflexivity|].
    rewrite Hr in Hd. eapply transition_count; eassumption.
Qed.

Lemma step_touches_own_ids_only_witness :
  count_occ string_dec
    (sys_signingOutDeviceIds
       (sys_step (Settles 0 (Fulfilled (VBool false))) (sys_run two_disjoint_requests)))
    DEV2 = 1.
Proof.
  rewrite (step_touches_own_ids_only two_disjoint_requests
             (Settles 0 (Fulfilled (VBool false))) DEV2).
  - reflexivity.
  - simpl. intros [H|[]]. discriminate H.
Defined.

(** ** The refresh and the cleanup *)








Lemma sys_continue_ok (more : list Stimulus) :
  forall sys, sys_ok sys -> sys_ok (sys_continue more sys).
Proof.
  induction more as [|ev more IH]; intros sys Hok; [exact Hok|].
  apply IH, sys_step_ok, Hok.
Qed.




